(** * reg-rag: hybrid retrieval and the request boundary

    A shallow embedding of [services/agent_service.py] (the hybrid
    retriever: keyword search, vector search, reciprocal rank fusion,
    hydration) and of [api/main.py] (the handling of the agent's terminal
    payload), followed by the properties the specification states about
    them.

    Python values are modelled as follows.
    - [int] is [Z]; a [str] is the list of its Unicode code points.
    - A [float] is kept abstract behind the class [ScoreArith]: the fusion
      code only adds scores, takes reciprocals of integers and compares.
      The instance [float_arith] is IEEE 754 binary64, the arithmetic
      Python runs; every general theorem holds for any instance.
    - A [dict] is an association list in insertion order, since the order
      of [dict.items()] decides how [sorted] breaks ties.
    - A call that may raise returns an [outcome]. *)

From Stdlib Require Import ZArith NArith List Bool Lia Sorted Permutation.
From Stdlib Require Import PrimFloat Uint63 Ascii DecimalString.
From Stdlib Require String.
Import String.StringSyntax.
Delimit Scope string_scope with string.
Import ListNotations.

Set Implicit Arguments.
Local Open Scope Z_scope.

(** ** Strings *)

Definition char := N.
Definition pystr := list char.

(** A literal of the source, code point by code point. *)
Fixpoint lit (s : String.string) : pystr :=
  match s with
  | String.EmptyString => []
  | String.String a s' => N_of_ascii a :: lit s'
  end.
Arguments lit s%_string.

(** [str.isspace] of one code point: the Unicode white space, which is also
    what [\s] matches in a [str] pattern and what [str.strip()] removes. *)
Definition isspace (c : char) : bool :=
  (((9 <=? c) && (c <=? 13)) || ((28 <=? c) && (c <=? 32)) ||
   (c =? 133) || (c =? 160) || (c =? 5760) ||
   ((8192 <=? c) && (c <=? 8202)) || (c =? 8232) || (c =? 8233) ||
   (c =? 8239) || (c =? 8287) || (c =? 12288))%N.

(** [str.isalnum] of one code point comes from the Unicode character
    database, which is not part of the repository. *)
Class Unicode := { isalnum : char -> bool }.

(** Letters and digits of Basic Latin and the Russian alphabet, the scripts
    of the queries; enough to run the examples. *)
Definition latin_cyrillic : Unicode := {|
  isalnum := fun c =>
    (((48 <=? c) && (c <=? 57)) || ((65 <=? c) && (c <=? 90)) ||
     ((97 <=? c) && (c <=? 122)) || ((1040 <=? c) && (c <=? 1103)) ||
     (c =? 1025) || (c =? 1105))%N
|}.

(** [\w] in a [str] pattern: alphanumeric or the underscore. *)
Definition re_word {U : Unicode} (c : char) : bool := isalnum c || (c =? 95)%N.

Fixpoint lstrip (s : pystr) : pystr :=
  match s with
  | c :: s' => if isspace c then lstrip s' else s
  | [] => []
  end.

Definition rstrip (s : pystr) : pystr := rev (lstrip (rev s)).

(** [s.strip()] *)
Definition strip (s : pystr) : pystr := rstrip (lstrip s).

(** [s.startswith(prefix)] *)
Fixpoint startswith (s prefix : pystr) : bool :=
  match prefix, s with
  | [], _ => true
  | p :: prefix', c :: s' => (c =? p)%N && startswith s' prefix'
  | _ :: _, [] => false
  end.

(** [needle in s] *)
Fixpoint contains (needle s : pystr) : bool :=
  startswith s needle ||
  match s with
  | [] => false
  | _ :: s' => contains needle s'
  end.

(** A slice bound as Python reads it against a length: a negative bound
    counts from the end, and both ends clamp. *)
Definition slice_bound (len : nat) (i : Z) : nat :=
  if i <? 0 then Z.to_nat (Z.of_nat len + i) else Nat.min (Z.to_nat i) len.

(** [l[start:stop]] *)
Definition slice {A} (l : list A) (start stop : Z) : list A :=
  let a := slice_bound (length l) start in
  let b := slice_bound (length l) stop in
  firstn (b - a) (skipn a l).

(** ** Exceptions *)

(** The classes the handlers of the two files tell apart. *)
Inductive exn_class :=
| Sqlite3Error        (* sqlite3.Error and its subclasses *)
| JSONDecodeError
| TypeError
| AttributeError
| ValidationError     (* pydantic's, a ValueError *)
| OtherException.     (* any other subclass of Exception *)

Inductive outcome (A : Type) :=
| Returns (a : A)
| Raises (e : exn_class).
Arguments Returns {A} a.
Arguments Raises {A} e.

Definition bind {A B} (o : outcome A) (f : A -> outcome B) : outcome B :=
  match o with
  | Returns a => f a
  | Raises e => Raises e
  end.

Notation "x <- o ;; k" := (bind o (fun x => k))
  (at level 61, o at next level, right associativity).

(** ** Scores *)

Class ScoreArith (F : Type) := {
  szero : F;                 (* the int 0 a fresh dict entry is set to *)
  sadd : F -> F -> F;        (* x + y *)
  recip : Z -> F;            (* 1 / n, true division by a nonzero int *)
  sltb : F -> F -> bool      (* x < y *)
}.

(** Python's own arithmetic: binary64. *)
#[export] Instance float_arith : ScoreArith float := {
  szero := PrimFloat.zero;
  sadd := PrimFloat.add;
  recip := fun n => PrimFloat.div PrimFloat.one (PrimFloat.of_uint63 (Uint63.of_Z n));
  sltb := PrimFloat.ltb
}.

(** ** Hits *)

(** [{"id": ..., "score": ...}] as returned by one search source; the score
    is the source's own (FTS5 rank, cosine similarity). *)
Record SearchHit (R : Type) := mkHit { hit_id : Z; hit_score : R }.

(** [{"id": doc_id, "score": score}] as returned by the fusion. *)
Record FusedHit (F : Type) := mkFused { fused_id : Z; fused_score : F }.

(** ** Insertion-ordered dict with int keys *)

Definition dict (V : Type) := list (Z * V).

Fixpoint dict_get {V} (d : dict V) (k : Z) : option V :=
  match d with
  | [] => None
  | (k', v) :: d' => if k' =? k then Some v else dict_get d' k
  end.

Definition dict_mem {V} (k : Z) (d : dict V) : bool :=
  match dict_get d k with Some _ => true | None => false end.

(** [d[k] = v]: an existing key keeps its place, a new one goes last. *)
Fixpoint dict_set {V} (d : dict V) (k : Z) (v : V) : dict V :=
  match d with
  | [] => [(k, v)]
  | (k', v') :: d' =>
      if k' =? k then (k', v) :: d' else (k', v') :: dict_set d' k v
  end.

Definition dict_keys {V} (d : dict V) : list Z := map fst d.

(** ** HybridRetriever._reciprocal_rank_fusion *)

Section Fusion.
Context {F : Type} {arith : ScoreArith F} {R : Type}.

(** The body of the inner loop, for one [(rank, doc)]. *)
Definition rrf_accumulate (k_rrf : Z) (fused_scores : dict F)
    (rank : nat) (doc : SearchHit R) : dict F :=
  let doc_id := hit_id doc in
  let fused_scores :=
    if dict_mem doc_id fused_scores then fused_scores
    else dict_set fused_scores doc_id szero in
  match dict_get fused_scores doc_id with
  | Some s =>
      dict_set fused_scores doc_id
        (sadd s (recip (k_rrf + Z.of_nat rank + 1)))
  | None => fused_scores     (* KeyError: the key was set just above *)
  end.

(** [for rank, doc in enumerate(results)], from rank [rank] on. *)
Fixpoint rrf_scan (k_rrf : Z) (fused_scores : dict F) (rank : nat)
    (results : list (SearchHit R)) : dict F :=
  match results with
  | [] => fused_scores
  | doc :: rest =>
      rrf_scan k_rrf (rrf_accumulate k_rrf fused_scores rank doc) (S rank) rest
  end.

(** [for results in results_lists], starting from the empty dict. *)
Definition rrf_fused_scores (k_rrf : Z)
    (results_lists : list (list (SearchHit R))) : dict F :=
  fold_left (fun fused_scores results => rrf_scan k_rrf fused_scores 0 results)
    results_lists [].

(** [sorted(items, key=lambda item: item[1], reverse=True)].  Python's
    sort is stable, also under [reverse=True]: items whose keys compare
    equal keep their order.  Each item goes behind the items with a
    strictly larger score and ahead of all the others that follow it. *)
Fixpoint insert_desc (item : Z * F) (l : list (Z * F)) : list (Z * F) :=
  match l with
  | [] => [item]
  | y :: l' =>
      if sltb (snd item) (snd y) then y :: insert_desc item l'
      else item :: l
  end.

Definition sorted_desc (items : list (Z * F)) : list (Z * F) :=
  fold_right insert_desc [] items.

Definition _reciprocal_rank_fusion
    (results_lists : list (list (SearchHit R))) (k_rrf : Z)
    : list (FusedHit F) :=
  let fused_scores := rrf_fused_scores k_rrf results_lists in
  map (fun item => mkFused (fst item) (snd item)) (sorted_desc fused_scores).

End Fusion.

(** The default of the parameter [k_rrf]. *)
Definition K_RRF : Z := 60.

(** ** _sanitize_fts_query *)

(** [re.sub(r'[^\w\s]', ' ', query)] *)
Definition _sanitize_fts_query {U : Unicode} (query : pystr) : pystr :=
  map (fun c => if re_word c || isspace c then c else 32%N) query.

(** ** HybridRetriever *)

(** A row of the table [documents], as [dict(row)]. *)
Record ParagraphRecord := mkRecord {
  rec_id : Z;
  rec_doc_id : Z;
  rec_chapter_id : Z;
  rec_paragraph_id : Z;
  rec_text : pystr
}.

(** What the retriever holds and calls.
    - [fts_match q k]: the database at [db_path] on
      [SELECT rowid, rank FROM documents_fts WHERE text MATCH q ORDER BY
      rank LIMIT k], connection included; the rows as hits.
    - [qdrant_search q k]: [model.encode] and [qdrant_client.search] with
      [limit=k]; the points as hits.
    - [documents]: the rows of the table [documents] as a read of the
      database finds them, or what the connection or the query raises. *)
Record HybridRetriever (F : Type) := {
  fts_match : pystr -> Z -> outcome (list (SearchHit F));
  qdrant_search : pystr -> Z -> outcome (list (SearchHit F));
  documents : outcome (list ParagraphRecord)
}.

Section Retriever.
Context {F : Type} {arith : ScoreArith F} {U : Unicode}.
Variable self : HybridRetriever F.

(** [except sqlite3.Error: return []] *)
Definition _search_sqlite (query : pystr) (k : Z)
    : outcome (list (SearchHit F)) :=
  let sanitized_query := _sanitize_fts_query query in
  match fts_match self sanitized_query k with
  | Returns rows => Returns rows
  | Raises Sqlite3Error => Returns []
  | Raises e => Raises e
  end.

(** [except Exception: return []] *)
Definition _search_qdrant (query : pystr) (k : Z)
    : outcome (list (SearchHit F)) :=
  match qdrant_search self query k with
  | Returns search_result => Returns search_result
  | Raises _ => Returns []
  end.

(** [{row['id']: dict(row) for row in rows}] *)
Definition results_map_of (rows : list ParagraphRecord) : dict ParagraphRecord :=
  fold_left (fun m row => dict_set m (rec_id row) row) rows [].

(** The second half of [retrieve]: the ids of [fused_results[:k]] looked
    up in the table, in their order, the ids without a row left out. *)
Definition hydrate (fused_results : list (FusedHit F)) (k : Z)
    : outcome (list ParagraphRecord) :=
  let top_ids := map (@fused_id F) (slice fused_results 0 k) in
  table <- documents self ;;
  let rows := filter (fun row => existsb (Z.eqb (rec_id row)) top_ids) table in
  let results_map := results_map_of rows in
  Returns (flat_map (fun doc_id =>
                       match dict_get results_map doc_id with
                       | Some doc => [doc]
                       | None => []
                       end) top_ids).

Definition retrieve (query : pystr) (k : Z) : outcome (list ParagraphRecord) :=
  sqlite_results <- _search_sqlite query k ;;
  qdrant_results <- _search_qdrant query k ;;
  let fused_results :=
    _reciprocal_rank_fusion [sqlite_results; qdrant_results] K_RRF in
  match fused_results with
  | [] => Returns []
  | _ :: _ => hydrate fused_results k
  end.

End Retriever.

(** [TOP_K], the [k] the tool [hybrid_search] asks for. *)
Definition TOP_K : Z := 5.

(** ** api/main.py: the request boundary *)

(** What [json.loads] returns.  A float keeps its lexeme, an object its
    members as the dict holds them. *)
#[local] Unset Elimination Schemes.
Inductive json :=
| JNull
| JBool (b : bool)
| JInt (n : Z)
| JFloat (lexeme : pystr)
| JStr (s : pystr)
| JArr (items : list json)
| JObj (members : list (pystr * json)).
#[local] Set Elimination Schemes.

Fixpoint pystr_eqb (a b : pystr) : bool :=
  match a, b with
  | [], [] => true
  | x :: a', y :: b' => (x =? y)%N && pystr_eqb a' b'
  | _, _ => false
  end.

(** [members.get(key)] *)
Fixpoint obj_get {V} (members : list (pystr * V)) (key : pystr) : option V :=
  match members with
  | [] => None
  | (k, v) :: rest => if pystr_eqb k key then Some v else obj_get rest key
  end.

(** The two libraries the handler calls: [json.loads], [None] standing for
    [json.JSONDecodeError], and pydantic's validation of one [int] field,
    [None] standing for its [ValidationError]. *)
Class Libs := {
  json_loads : pystr -> option json;
  validate_int : json -> option Z
}.

Record ParagraphLocation := mkLocation {
  doc_id : Z;
  chapter_id : Z;
  paragraph_id : Z
}.

Record QuestionPayload := {
  question_text : pystr;          (* payload.question.text *)
  answers : list pystr;
  correctAnswers : list pystr
}.

(** The value of [response] after [await agent_executor.ainvoke(...)]. *)
Inductive agent_response :=
| NoOutput                              (* falsy, or without the key 'output' *)
| Output (agent_output_str : pystr).    (* response.get('output') *)

(** The [detail] of an [HTTPException]: a Python value, or the f-string
    around [str(e)] for an exception [e] of some library. *)
Inductive detail :=
| Detail (v : json)
| InternalError (e : exn_class).  (* f"An internal error occurred: {str(e)}" *)

(** What a block of the handler ends with, other than a value. *)
Inductive raised :=
| HTTPException (status_code : Z) (d : detail)
| Exn (e : exn_class).

(** What the client gets. *)
Inductive http_result :=
| Ok200 (validated_result : ParagraphLocation)
| HTTPError (status_code : Z) (d : detail).

Definition quote : char := 34%N.

(** The text the handler looks for: the key [error] in its double quotes,
    with the colon right behind. *)
Definition error_marker : pystr := quote :: lit "error" ++ [quote; 58%N].

(** [sep.join(items)] *)
Fixpoint join (sep : pystr) (items : list pystr) : pystr :=
  match items with
  | [] => []
  | [x] => x
  | x :: rest => x ++ sep ++ join sep rest
  end.

Section Boundary.
Context {L : Libs}.

(** The clean-up of markdown code fences. *)
Definition strip_fence (agent_output_str : pystr) : pystr :=
  if startswith (strip agent_output_str) (lit "```json")
  then strip (slice (strip agent_output_str) 7 (-4))
  else agent_output_str.

(** [ParagraphLocation] built from [result_data] unpacked as keywords: the
    unpacking takes a mapping only, and each of the three fields is
    required. *)
Definition validate_location (result_data : json) : raised + ParagraphLocation :=
  match result_data with
  | JObj members =>
      match obj_get members (lit "doc_id"),
            obj_get members (lit "chapter_id"),
            obj_get members (lit "paragraph_id") with
      | Some a, Some b, Some c =>
          match validate_int a, validate_int b, validate_int c with
          | Some x, Some y, Some z => inr (mkLocation x y z)
          | _, _, _ => inl (Exn ValidationError)
          end
      | _, _, _ => inl (Exn ValidationError)
      end
  | _ => inl (Exn TypeError)
  end.

(** The body of the inner [try], from the cleaned string on. *)
Definition read_payload (agent_output_str : pystr) : raised + ParagraphLocation :=
  if contains error_marker agent_output_str then
    match json_loads agent_output_str with
    | None => inl (Exn JSONDecodeError)
    | Some (JObj error_data) =>
        inl (HTTPException 404
               (Detail (match obj_get error_data (lit "error") with
                        | Some v => v
                        | None => JStr (lit "Justification not found")
                        end)))
    | Some _ => inl (Exn AttributeError)    (* no method [get] *)
    end
  else
    match json_loads agent_output_str with
    | None => inl (Exn JSONDecodeError)
    | Some result_data => validate_location result_data
    end.

(** The inner [try] with its
    [except (json.JSONDecodeError, TypeError, AttributeError)]. *)
Definition parse_output (agent_output_str : pystr) : raised + ParagraphLocation :=
  let agent_output_str := strip_fence agent_output_str in
  match read_payload agent_output_str with
  | inl (Exn JSONDecodeError) | inl (Exn TypeError) | inl (Exn AttributeError) =>
      inl (HTTPException 500
             (Detail (JStr (lit "Agent produced a malformed output. Raw output: "
                              ++ agent_output_str))))
  | r => r
  end.

(** The outer [try], from the awaited call on, with its
    [except HTTPException] and [except Exception]. *)
Definition respond (response : outcome agent_response) : http_result :=
  let body : raised + ParagraphLocation :=
    match response with
    | Raises e => inl (Exn e)
    | Returns NoOutput =>
        inl (HTTPException 404
               (Detail (JStr (lit
                  "Agent failed to produce a result within the iteration limit."))))
    | Returns (Output []) =>
        inl (HTTPException 500
               (Detail (JStr (lit "Agent did not produce an output."))))
    | Returns (Output agent_output_str) => parse_output agent_output_str
    end in
  match body with
  | inr validated_result => Ok200 validated_result
  | inl (HTTPException status_code d) => HTTPError status_code d
  | inl (Exn e) => HTTPError 500 (InternalError e)
  end.

Definition find_justifying_paragraph
    (ainvoke : pystr -> outcome agent_response) (payload : QuestionPayload)
    : http_result :=
  let question_text := question_text payload in
  let correct_answers_text := join (lit ", ") (correctAnswers payload) in
  let full_input :=
    lit "Question: " ++ question_text ++ [10%N]
      ++ lit "Correct Answer: " ++ correct_answers_text in
  respond (ainvoke full_input).

End Boundary.

(** [max_iterations] of the [AgentExecutor] that [create_agent] builds. *)
Definition max_iterations : Z := 5.

(** ** Vocabulary of the statements about fusion *)

(** The 0-based rank of id [i] in a source list, counted from [rank]. *)
Fixpoint rank_from {R} (i : Z) (rank : nat) (results : list (SearchHit R))
    : option nat :=
  match results with
  | [] => None
  | doc :: rest =>
      if hit_id doc =? i then Some rank else rank_from i (S rank) rest
  end.

Definition rank_of {R} (i : Z) (results : list (SearchHit R)) : option nat :=
  rank_from i 0 results.

(** The terms [1 / (k_rrf + rank + 1)] that one source list gives to id
    [i], one for each position at which [i] stands, in the order of the
    scan. *)
Fixpoint rrf_terms {F} {arith : ScoreArith F} {R} (k_rrf : Z) (i : Z)
    (rank : nat) (results : list (SearchHit R)) : list F :=
  match results with
  | [] => []
  | doc :: rest =>
      (if hit_id doc =? i then [recip (k_rrf + Z.of_nat rank + 1)] else [])
        ++ rrf_terms k_rrf i (S rank) rest
  end.

Definition or_zero {F} {arith : ScoreArith F} (o : option F) : F :=
  match o with Some s => s | None => szero end.

(** What the specification gives id [i] for the keyword list [kw] and the
    vector list [vec]: the sum of [1/(60 + r + 1)] over the lists that hold
    [i].  The sum starts from the int 0, as the code's does. *)
Definition rrf_sum {F} {arith : ScoreArith F} {R}
    (kw vec : list (SearchHit R)) (i : Z) : option F :=
  match rank_of i kw, rank_of i vec with
  | Some r1, Some r2 =>
      Some (sadd (sadd szero (recip (60 + Z.of_nat r1 + 1)))
                 (recip (60 + Z.of_nat r2 + 1)))
  | Some r1, None => Some (sadd szero (recip (60 + Z.of_nat r1 + 1)))
  | None, Some r2 => Some (sadd szero (recip (60 + Z.of_nat r2 + 1)))
  | None, None => None
  end.

(** [a] stands somewhere before [b] in [l]. *)
Definition precedes {A} (a b : A) (l : list A) : Prop :=
  exists l1 l2 l3, l = l1 ++ a :: l2 ++ b :: l3.

(** The ids of a run in the order in which the scan first meets them: the
    order in which they enter the dict. *)
Fixpoint first_seen (seen : list Z) (ids : list Z) : list Z :=
  match ids with
  | [] => seen
  | i :: rest =>
      first_seen (if existsb (Z.eqb i) seen then seen else seen ++ [i]) rest
  end.

(** [<] orders the given scores: it is asymmetric and its complement is
    transitive.  Floats other than NaN are ordered so. *)
Definition comparable {F} {arith : ScoreArith F} (scores : list F) : Prop :=
  (forall a b, In a scores -> In b scores ->
     sltb a b = true -> sltb b a = false) /\
  (forall a b c, In a scores -> In b scores -> In c scores ->
     sltb a b = false -> sltb b c = false -> sltb a c = false).

Definition comparableb {F} {arith : ScoreArith F} (scores : list F) : bool :=
  forallb (fun a => forallb (fun b =>
    implb (sltb a b) (negb (sltb b a)) &&
    forallb (fun c =>
      implb (negb (sltb a b) && negb (sltb b c)) (negb (sltb a c))) scores)
    scores) scores.

(** [x] does not score less than [y]. *)
Definition score_ge {F} {arith : ScoreArith F} (x y : Z * F) : Prop :=
  sltb (snd x) (snd y) = false.

(** The order the specification words: of two entries with tied scores the
    one with the lower id comes first. *)
Definition ties_by_ascending_id {F} {arith : ScoreArith F}
    (out : list (FusedHit F)) : Prop :=
  forall a b, precedes a b out ->
    sltb (fused_score b) (fused_score a) = false ->
    fused_id a < fused_id b.

(** ** Vocabulary of the statements about retrieval *)

(** What [retrieve] makes of the hit lists [kw] and [vec]. *)
Definition retrieve_from {F} {arith : ScoreArith F} (self : HybridRetriever F)
    (kw vec : list (SearchHit F)) (k : Z) : outcome (list ParagraphRecord) :=
  match _reciprocal_rank_fusion [kw; vec] K_RRF with
  | [] => Returns []
  | fused_results => hydrate self fused_results k
  end.

(** The table has a row with id [i]. *)
Definition has_record (table : list ParagraphRecord) (i : Z) : bool :=
  existsb (fun row => rec_id row =? i) table.

(** A call raises nothing but [sqlite3.Error]. *)
Definition sqlite_faults_only {A} (o : outcome A) : Prop :=
  forall e, o = Raises e -> e = Sqlite3Error.

(** The sanitizer as the specification words it: what is neither
    alphanumeric nor white space becomes a space. *)
Definition sanitize_as_worded {U : Unicode} (query : pystr) : pystr :=
  map (fun c => if isalnum c || isspace c then c else 32%N) query.

(** ** Vocabulary of the statements about the boundary *)

(** A payload inside a fenced code block, as the prompt prints its examples:
    the opening fence with its tag, a line break, the payload, a line break,
    the closing fence. *)
Definition fenced (payload : pystr) : pystr :=
  lit "```json" ++ [10%N] ++ payload ++ [10%N] ++ lit "```".

(** The closing fence right behind the payload, no line break between. *)
Definition fenced_tight (payload : pystr) : pystr :=
  lit "```json" ++ [10%N] ++ payload ++ lit "```".

(** What the handler hands to [json.loads] and gets back. *)
Definition parse_terminal {L : Libs} (agent_output_str : pystr) : option json :=
  json_loads (strip_fence agent_output_str).

(** The parsed payload is an object with the three fields of a location. *)
Definition has_location_fields (v : json) : bool :=
  match v with
  | JObj members =>
      match obj_get members (lit "doc_id"),
            obj_get members (lit "chapter_id"),
            obj_get members (lit "paragraph_id") with
      | Some _, Some _, Some _ => true
      | _, _, _ => false
      end
  | _ => false
  end.

(** The text [Agent produced a malformed output. Raw output: ...]. *)
Definition malformed_detail (raw : pystr) : detail :=
  Detail (JStr (lit "Agent produced a malformed output. Raw output: " ++ raw)).

(** ** Test doubles *)

(** A retriever whose sources answer every query alike. *)
Definition retriever_of {F} (kw vec : outcome (list (SearchHit F)))
    (table : outcome (list ParagraphRecord)) : HybridRetriever F :=
  {| fts_match := fun _ _ => kw;
     qdrant_search := fun _ _ => vec;
     documents := table |}.

Definition record_1 : ParagraphRecord :=
  mkRecord 1 1 1 10 (lit "the inspection is done by staff of group III").

Definition record_7 : ParagraphRecord :=
  mkRecord 7 3 2 70 (lit "the order is logged by the operator on duty").

(** A JSON text, written with an apostrophe for each double quote. *)
Definition jlit (s : String.string) : pystr :=
  map (fun c => if (c =? 39)%N then quote else c) (lit s).
Arguments jlit s%_string.

(** Libraries that know the given JSON texts, reject every other text and
    take an [int] for an [int] field. *)
Definition libs_of (texts : list (pystr * json)) : Libs :=
  {| json_loads := obj_get texts;
     validate_int := fun v => match v with JInt n => Some n | _ => None end |}.

(** The success example of the prompt. *)
Definition location_text : pystr :=
  jlit "{'doc_id': 9, 'chapter_id': 5, 'paragraph_id': 434408}".

Definition location_value : json :=
  JObj [(lit "doc_id", JInt 9); (lit "chapter_id", JInt 5);
        (lit "paragraph_id", JInt 434408)].

(** The failure example of the prompt. *)
Definition failure_text : pystr :=
  jlit "{'error': 'Justification paragraph not found after multiple attempts.'}".

Definition failure_value : json :=
  JObj [(lit "error",
         JStr (lit "Justification paragraph not found after multiple attempts."))].

(** An object without [chapter_id] and [paragraph_id] and without a member
    [error] of its own, that holds an object with one. *)
Definition nested_text : pystr :=
  jlit "{'doc_id': 9, 'info': {'error': 'x'}}".

Definition nested_value : json :=
  JObj [(lit "doc_id", JInt 9);
        (lit "info", JObj [(lit "error", JStr (lit "x"))])].

Definition sample_libs : Libs :=
  libs_of [(location_text, location_value); (failure_text, failure_value);
           (nested_text, nested_value)].

(** ** The tool hybrid_search *)

(** [str(n)] of an int, as an f-string prints it. *)
Definition str_of_int (n : Z) : pystr :=
  lit (NilZero.string_of_int (Z.to_int n)).

(** The block the tool appends for one document. *)
Definition format_document (doc : ParagraphRecord) : pystr :=
  lit "Source (doc_id: " ++ str_of_int (rec_doc_id doc)
    ++ lit ", chapter_id: " ++ str_of_int (rec_chapter_id doc)
    ++ lit ", paragraph_id: " ++ str_of_int (rec_paragraph_id doc)
    ++ lit "):" ++ [10%N]
    ++ lit "Content: " ++ rec_text doc ++ [10%N].

Definition no_documents_message : pystr :=
  lit "No relevant documents found for this query.".

(** The separator of the blocks: a line of three dashes. *)
Definition block_separator : pystr := [10%N] ++ lit "---" ++ [10%N].

Definition hybrid_search {F} {arith : ScoreArith F} {U : Unicode}
    (retriever : HybridRetriever F) (query : pystr) : outcome pystr :=
  documents <- retrieve retriever query TOP_K ;;
  match documents with
  | [] => Returns no_documents_message
  | _ :: _ => Returns (join block_separator (map format_document documents))
  end.

(** ** scripts: clean_html *)

(** The text after a [<] closes a tag: a [>] comes before any line break,
    which the dot of the pattern does not match. *)
Fixpoint closes (s : pystr) : bool :=
  match s with
  | [] => false
  | c :: s' =>
      if (c =? 62)%N then true else if (c =? 10)%N then false else closes s'
  end.

(** [re.sub('<.*?>', '', s)]: the scan from the left; [in_tag] says that
    the scan stands inside a match, which ends at the first [>]. *)
Fixpoint remove_tags_from (in_tag : bool) (s : pystr) : pystr :=
  match s with
  | [] => []
  | c :: s' =>
      if in_tag then
        if (c =? 62)%N then remove_tags_from false s'
        else remove_tags_from true s'
      else if (c =? 60)%N && closes s' then remove_tags_from true s'
      else c :: remove_tags_from false s'
  end.

Definition remove_tags (s : pystr) : pystr := remove_tags_from false s.

(** [s.split()]: the maximal runs without white space; [word] is the run
    the scan is in. *)
Fixpoint split_from (word : pystr) (s : pystr) : list pystr :=
  match s with
  | [] => match word with [] => [] | _ :: _ => [word] end
  | c :: s' =>
      if isspace c then
        match word with
        | [] => split_from [] s'
        | _ :: _ => word :: split_from [] s'
        end
      else split_from (word ++ [c]) s'
  end.

Definition split (s : pystr) : list pystr := split_from [] s.

Definition clean_html (raw_html : pystr) : pystr :=
  let cleantext := remove_tags raw_html in
  join [32%N] (split cleantext).

(** A prepared document: its text and its metadata, of whatever type. *)
Record PreparedDoc (M : Type) := mkDoc { doc_text : pystr; doc_metadata : M }.

(** ** scripts: the preparation of the documents *)

(** The metadata of a prepared document: what [get("id")] gave for the
    document, the chapter and the paragraph, [None] as [JNull]. *)
Record Metadata := mkMeta {
  meta_doc_id : json;
  meta_chapter_id : json;
  meta_paragraph_id : json
}.

(** [v.get(key, default)]: only a dict has the method. *)
Definition py_get (v : json) (key : pystr) (default : json) : exn_class + json :=
  match v with
  | JObj members =>
      inr (match obj_get members key with Some x => x | None => default end)
  | _ => inl AttributeError
  end.

(** What [for x in v] runs over: the items of a list, the characters of a
    string, the keys of a dict; nothing else can be iterated. *)
Definition py_iter (v : json) : exn_class + list json :=
  match v with
  | JArr items => inr items
  | JStr s => inr (map (fun c => JStr [c]) s)
  | JObj members => inr (map (fun kv => JStr (fst kv)) members)
  | _ => inl TypeError
  end.

Section Preparation.

(** Whether the lexeme of a float reads as zero is the parser's business. *)
Variable float_is_zero : pystr -> bool.

(** [bool(v)] *)
Definition truthy (v : json) : bool :=
  match v with
  | JNull => false
  | JBool b => b
  | JInt n => negb (n =? 0)
  | JFloat lexeme => negb (float_is_zero lexeme)
  | JStr s => match s with [] => false | _ :: _ => true end
  | JArr items => match items with [] => false | _ :: _ => true end
  | JObj members => match members with [] => false | _ :: _ => true end
  end.

(** The loop over the paragraphs of a chapter.  It appends to [prepared]
    and stops at the first exception, which it hands on with what was
    appended so far.  [min_length] is 30 in [setup_hybrid_search.py] and 1
    in [prepare_data.py], where only the empty text is skipped. *)
Fixpoint scan_paragraphs (min_length : nat) (doc_id chapter_id : json)
    (paragraphs : list json) (prepared : list (PreparedDoc Metadata))
    : list (PreparedDoc Metadata) * option exn_class :=
  match paragraphs with
  | [] => (prepared, None)
  | paragraph :: rest =>
      match py_get paragraph (lit "id") JNull,
            py_get paragraph (lit "content") (JStr []) with
      | inl e, _ | _, inl e => (prepared, Some e)
      | inr paragraph_id, inr content =>
          if negb (truthy content) then
            scan_paragraphs min_length doc_id chapter_id rest prepared
          else
            match content with
            | JStr raw_content =>
                let cleaned_text := clean_html raw_content in
                if (length cleaned_text <? min_length)%nat then
                  scan_paragraphs min_length doc_id chapter_id rest prepared
                else
                  scan_paragraphs min_length doc_id chapter_id rest
                    (prepared
                       ++ [mkDoc cleaned_text
                             (mkMeta doc_id chapter_id paragraph_id)])
            | _ => (prepared, Some TypeError)     (* re.sub on a non-string *)
            end
      end
  end.

(** The loop over the chapters of a document. *)
Fixpoint scan_chapters (min_length : nat) (doc_id : json)
    (chapters : list json) (prepared : list (PreparedDoc Metadata))
    : list (PreparedDoc Metadata) * option exn_class :=
  match chapters with
  | [] => (prepared, None)
  | chapter :: rest =>
      match py_get chapter (lit "id") JNull,
            py_get chapter (lit "paragraphs") (JArr []) with
      | inl e, _ | _, inl e => (prepared, Some e)
      | inr chapter_id, inr paragraphs =>
          match py_iter paragraphs with
          | inl e => (prepared, Some e)
          | inr paragraphs =>
              match scan_paragraphs min_length doc_id chapter_id paragraphs
                      prepared with
              | (prepared, Some e) => (prepared, Some e)
              | (prepared, None) =>
                  scan_chapters min_length doc_id rest prepared
              end
          end
      end
  end.

(** From [doc_id = doc_data.get("id")] to the end of the loops. *)
Definition scan_document (min_length : nat) (doc_data : json)
    (prepared : list (PreparedDoc Metadata))
    : list (PreparedDoc Metadata) * option exn_class :=
  match py_get doc_data (lit "id") JNull,
        py_get doc_data (lit "chapters") (JArr []) with
  | inl e, _ | _, inl e => (prepared, Some e)
  | inr doc_id, inr chapters =>
      match py_iter chapters with
      | inl e => (prepared, Some e)
      | inr chapters => scan_chapters min_length doc_id chapters prepared
      end
  end.

(** [setup_hybrid_search.py]: the body of the loop over the files, with its
    [except Exception], which keeps what the file gave before it raised.
    [doc_data] is [None] for a file that could not be opened or parsed. *)
Definition prepare_file (doc_data : option json)
    (all_prepared_docs : list (PreparedDoc Metadata))
    : list (PreparedDoc Metadata) :=
  match doc_data with
  | None => all_prepared_docs
  | Some doc_data => fst (scan_document 30 doc_data all_prepared_docs)
  end.

(** [prepare_documents_from_directory], over the [.json] files of the
    directory in the order of their names. *)
Definition prepare_documents_from_directory (files : list (option json))
    : list (PreparedDoc Metadata) :=
  fold_left (fun all_prepared_docs doc_data =>
               prepare_file doc_data all_prepared_docs) files [].

(** [prepare_data.py]: the list that [prepare_data_for_hybrid_search]
    writes out; nothing catches an exception there. *)
Definition prepare_data_for_hybrid_search (doc_data : json)
    : outcome (list (PreparedDoc Metadata)) :=
  match scan_document 1 doc_data [] with
  | (documents_for_indexing, None) => Returns documents_for_indexing
  | (_, Some e) => Raises e
  end.

End Preparation.

(** ** scripts/setup_hybrid_search.py: the indexing loop of main *)

(** A row of the table [documents] with the metadata in one piece, a row of
    the table [documents_fts], and a point for Qdrant. *)
Record DocRow (M : Type) := mkRow { row_id : Z; row_text : pystr; row_metadata : M }.
Record FtsRow := mkFts { fts_rowid : Z; fts_text : pystr }.
Record PointStruct (M V : Type) := mkPoint {
  point_id : Z;
  point_vector : V;
  point_payload : M
}.

(** The database of [setup_sqlite]: the two tables. *)
Record Database (M : Type) := mkDb {
  db_documents : list (DocRow M);
  db_fts : list FtsRow
}.

(** The database right after [setup_sqlite]: both tables dropped and
    created anew. *)
Definition setup_sqlite {M} : Database M := mkDb [] [].

Section Indexing.
Context {M V : Type}.

(** The key SQLite gives a row inserted without one, from the keys in use. *)
Variable next_rowid : list Z -> Z.

(** [INSERT INTO documents (text, doc_id, chapter_id, paragraph_id)]: the
    row gets its key, the trigger [documents_after_insert] copies key and
    text into [documents_fts], and [lastrowid] is the key. *)
Definition insert_document (db : Database M) (doc : PreparedDoc M)
    : Database M * Z :=
  let db_id := next_rowid (map (@row_id M) (db_documents db)) in
  (mkDb (db_documents db ++ [mkRow db_id (doc_text doc) (doc_metadata doc)])
        (db_fts db ++ [mkFts db_id (doc_text doc)]),
   db_id).

(** The loop [for i, doc in enumerate(documents)] of [main], over the
    documents paired with their embeddings. *)
Fixpoint index_documents (db : Database M)
    (points_to_upsert : list (PointStruct M V))
    (documents : list (PreparedDoc M * V))
    : Database M * list (PointStruct M V) :=
  match documents with
  | [] => (db, points_to_upsert)
  | (doc, embedding) :: rest =>
      let (db', db_id) := insert_document db doc in
      index_documents db'
        (points_to_upsert ++ [mkPoint db_id embedding (doc_metadata doc)])
        rest
  end.

End Indexing.

(** SQLite's choice for an integer primary key: one more than the largest
    key in use, 1 in an empty table. *)
Definition sqlite_next_rowid (ids : list Z) : Z :=
  match ids with
  | [] => 1
  | i :: rest => fold_right Z.max i rest + 1
  end.

(** ** Vocabulary of the further statements *)

(** All the terms that the lists of a run give to id [i], list after list. *)
Definition rrf_all_terms {F} {arith : ScoreArith F} {R} (k_rrf : Z) (i : Z)
    (results_lists : list (list (SearchHit R))) : list F :=
  List.concat (map (rrf_terms k_rrf i 0) results_lists).

(** The ids of all the hits of a run. *)
Definition hit_ids {R} (results_lists : list (list (SearchHit R))) : list Z :=
  List.concat (map (map (@hit_id R)) results_lists).

(** Along the ranks of a list of [n] hits, scanned alone, no term scores
    less than the next. *)
Definition terms_descend {F} {arith : ScoreArith F} (k_rrf : Z) (n : nat) : Prop :=
  forall r, (S r < n)%nat ->
    sltb (sadd szero (recip (k_rrf + Z.of_nat r + 1)))
         (sadd szero (recip (k_rrf + Z.of_nat (S r) + 1))) = false.

(** The dict entries of a list scanned alone from rank [rank]: each id with
    its one term. *)
Fixpoint rrf_entries {F} {arith : ScoreArith F} {R} (k_rrf : Z) (rank : nat)
    (results : list (SearchHit R)) : list (Z * F) :=
  match results with
  | [] => []
  | doc :: rest =>
      (hit_id doc, sadd szero (recip (k_rrf + Z.of_nat rank + 1)))
        :: rrf_entries k_rrf (S rank) rest
  end.

(** No item scores less than the one right behind it. *)
Fixpoint desc_chain {F} {arith : ScoreArith F} (d : list (Z * F)) : Prop :=
  match d with
  | x :: (y :: _) as d' => sltb (snd x) (snd y) = false /\ desc_chain d'
  | _ => True
  end.

(** A character the sanitizer leaves as it is. *)
Definition sanitized_char {U : Unicode} (c : char) : bool :=
  re_word c || isspace c.

(** Some [<] of the text closes a tag. *)
Fixpoint has_tag (s : pystr) : bool :=
  match s with
  | [] => false
  | c :: s' => ((c =? 60)%N && closes s') || has_tag s'
  end.

(** A word: not empty and free of white space. *)
Definition wordlike (w : pystr) : Prop :=
  w <> [] /\ Forall (fun c => isspace c = false) w.

(** The text is words with one space between any two: no white space at
    either end, none but the space, no two spaces in a row.  [at_start]
    says that no word has begun yet or a space came last. *)
Fixpoint single_spaced_from (at_start : bool) (s : pystr) : bool :=
  match s with
  | [] => negb at_start
  | c :: s' =>
      if (c =? 32)%N then negb at_start && single_spaced_from true s'
      else negb (isspace c) && single_spaced_from false s'
  end.

Definition single_spaced (s : pystr) : bool :=
  match s with
  | [] => true
  | _ :: _ => single_spaced_from true s
  end.

(** What the loops of the preparation may append: a cleaned text of the
    length asked for, under the id of the document. *)
Definition sound (min_length : nat) (doc_id : json)
    (doc : PreparedDoc Metadata) : Prop :=
  (min_length <= length (doc_text doc))%nat /\
  single_spaced (doc_text doc) = true /\
  (exists raw_content, doc_text doc = clean_html raw_content) /\
  meta_doc_id (doc_metadata doc) = doc_id.

(** A document of one chapter: a paragraph long enough to be indexed, an
    empty one, one too short for the index, and one whose content is a
    number, on which the cleaning raises. *)
Definition sample_document : json :=
  JObj [(lit "id", JInt 3);
        (lit "chapters",
         JArr [JObj [(lit "id", JInt 2);
                     (lit "paragraphs",
                      JArr [JObj [(lit "id", JInt 70);
                                  (lit "content",
                                   JStr (lit "<p>The order is  logged by the operator on duty.</p>"))];
                            JObj [(lit "id", JInt 71);
                                  (lit "content", JStr [])];
                            JObj [(lit "id", JInt 72);
                                  (lit "content", JStr (lit "<b>Note</b>"))];
                            JObj [(lit "id", JInt 73);
                                  (lit "content", JInt 5)];
                            JObj [(lit "id", JInt 74);
                                  (lit "content",
                                   JStr (lit "The inspection is done by staff of group III."))]])]])].

(** The same document without the paragraph that raises. *)
Definition sound_document : json :=
  JObj [(lit "id", JInt 3);
        (lit "chapters",
         JArr [JObj [(lit "id", JInt 2);
                     (lit "paragraphs",
                      JArr [JObj [(lit "id", JInt 70);
                                  (lit "content",
                                   JStr (lit "<p>The order is  logged by the operator on duty.</p>"))];
                            JObj [(lit "id", JInt 72);
                                  (lit "content", JStr (lit "<b>Note</b>"))]])]])].

(** * Properties *)

(** ** The dict *)

Section DictFacts.
Context {V : Type}.

Lemma dict_get_set (d : dict V) (k k' : Z) (v : V) :
  dict_get (dict_set d k v) k' = if k =? k' then Some v else dict_get d k'.
Proof.
  induction d as [|[k0 v0] d IH]; simpl.
  - reflexivity.
  - destruct (k0 =? k) eqn:E0; simpl.
    + apply Z.eqb_eq in E0. subst k0. destruct (k =? k'); reflexivity.
    + destruct (k0 =? k') eqn:E1; [|exact IH].
      apply Z.eqb_eq in E1. subst k'.
      rewrite Z.eqb_sym, E0. reflexivity.
Qed.

Lemma dict_mem_In (d : dict V) (k : Z) :
  dict_mem k d = true <-> In k (dict_keys d).
Proof.
  unfold dict_mem. induction d as [|[k0 v0] d IH]; simpl.
  - split; [discriminate | tauto].
  - destruct (k0 =? k) eqn:E.
    + apply Z.eqb_eq in E. split; auto.
    + apply Z.eqb_neq in E. rewrite IH. split; [auto | intros [?|?]; tauto].
Qed.

Lemma dict_keys_set (d : dict V) (k : Z) (v : V) :
  dict_keys (dict_set d k v) =
  if dict_mem k d then dict_keys d else dict_keys d ++ [k].
Proof.
  unfold dict_mem. induction d as [|[k0 v0] d IH]; simpl.
  - reflexivity.
  - destruct (k0 =? k) eqn:E; simpl; [reflexivity|].
    rewrite IH. destruct (dict_get d k); reflexivity.
Qed.

Lemma dict_get_In (d : dict V) (k : Z) (v : V) :
  dict_get d k = Some v -> In (k, v) d.
Proof.
  induction d as [|[k0 v0] d IH]; simpl; [discriminate|].
  destruct (k0 =? k) eqn:E.
  - apply Z.eqb_eq in E. intros [= ->]. left. congruence.
  - auto.
Qed.

Lemma dict_In_get (d : dict V) (k : Z) (v : V) :
  NoDup (dict_keys d) -> In (k, v) d -> dict_get d k = Some v.
Proof.
  induction d as [|[k0 v0] d IH]; simpl; [tauto|].
  intros ND [E|H]; inversion ND as [|? ? Hnotin ND']; subst.
  - injection E as -> ->. rewrite Z.eqb_refl. reflexivity.
  - destruct (k0 =? k) eqn:E; [|auto].
    apply Z.eqb_eq in E. subst k0. exfalso. apply Hnotin.
    unfold dict_keys. change k with (fst (k, v)). apply in_map, H.
Qed.

End DictFacts.

(** ** The accumulation loop *)

Section FusionScores.
Context {F : Type} {arith : ScoreArith F} {R : Type}.
Implicit Types (d : dict F) (doc : SearchHit R) (l : list (SearchHit R)).

Lemma dict_get_accumulate k_rrf d rank doc (i : Z) :
  dict_get (rrf_accumulate k_rrf d rank doc) i =
  if hit_id doc =? i
  then Some (sadd (or_zero (dict_get d i)) (recip (k_rrf + Z.of_nat rank + 1)))
  else dict_get d i.
Proof.
  unfold rrf_accumulate, dict_mem.
  destruct (hit_id doc =? i) eqn:E.
  - apply Z.eqb_eq in E. subst i.
    destruct (dict_get d (hit_id doc)) as [s|] eqn:G.
    + rewrite G, dict_get_set, Z.eqb_refl. reflexivity.
    + rewrite dict_get_set, Z.eqb_refl, dict_get_set, Z.eqb_refl. reflexivity.
  - destruct (dict_get d (hit_id doc)) as [s|] eqn:G.
    + rewrite G, dict_get_set, E. reflexivity.
    + rewrite dict_get_set, Z.eqb_refl, !dict_get_set, E. reflexivity.
Qed.

Lemma dict_keys_accumulate k_rrf d rank doc :
  dict_keys (rrf_accumulate k_rrf d rank doc) =
  if existsb (Z.eqb (hit_id doc)) (dict_keys d) then dict_keys d
  else dict_keys d ++ [hit_id doc].
Proof.
  assert (M : existsb (Z.eqb (hit_id doc)) (dict_keys d) = dict_mem (hit_id doc) d).
  { apply eq_true_iff_eq. rewrite existsb_exists, dict_mem_In. split.
    - intros (x & Hx & E). apply Z.eqb_eq in E. congruence.
    - intros H. exists (hit_id doc). split; [exact H | apply Z.eqb_refl]. }
  rewrite M. unfold rrf_accumulate.
  destruct (dict_mem (hit_id doc) d) eqn:Hm.
  - unfold dict_mem in Hm. destruct (dict_get d (hit_id doc)) eqn:G; [|discriminate].
    rewrite dict_keys_set. unfold dict_mem. rewrite G. reflexivity.
  - rewrite dict_get_set, Z.eqb_refl, dict_keys_set.
    unfold dict_mem at 1. rewrite dict_get_set, Z.eqb_refl.
    rewrite dict_keys_set, Hm. reflexivity.
Qed.

(** The score of an id after the scan of one list: the terms of the list
    added, left to right, to what the dict held. *)
Lemma dict_get_scan k_rrf (i : Z) l :
  forall d rank,
    dict_get (rrf_scan k_rrf d rank l) i =
    match rrf_terms k_rrf i rank l with
    | [] => dict_get d i
    | ts => Some (fold_left sadd ts (or_zero (dict_get d i)))
    end.
Proof.
  induction l as [|doc l IH]; intros d rank; simpl; [reflexivity|].
  rewrite IH, dict_get_accumulate.
  destruct (hit_id doc =? i); simpl.
  - destruct (rrf_terms k_rrf i (S rank) l); reflexivity.
  - reflexivity.
Qed.

Lemma dict_keys_scan k_rrf l :
  forall d rank,
    dict_keys (rrf_scan k_rrf d rank l) = first_seen (dict_keys d) (map (@hit_id R) l).
Proof.
  induction l as [|doc l IH]; intros d rank; simpl; [reflexivity|].
  rewrite IH, dict_keys_accumulate. reflexivity.
Qed.

Lemma first_seen_app (ids ids' : list Z) :
  forall seen, first_seen seen (ids ++ ids') = first_seen (first_seen seen ids) ids'.
Proof. induction ids as [|i ids IH]; intros seen; simpl; [reflexivity | apply IH]. Qed.

(** The keys of the dict are the ids of the run in the order of their first
    appearance, the first list scanned first. *)
Lemma dict_keys_fused k_rrf (ls : list (list (SearchHit R))) :
  dict_keys (rrf_fused_scores (F:=F) k_rrf ls) =
  first_seen [] (concat (map (map (@hit_id R)) ls)).
Proof.
  unfold rrf_fused_scores.
  change (@nil Z) with (dict_keys (@nil (Z * F))). generalize (@nil (Z * F)).
  induction ls as [|l ls IH]; intros d; simpl; [reflexivity|].
  rewrite IH, first_seen_app, dict_keys_scan. reflexivity.
Qed.

Lemma first_seen_NoDup (ids : list Z) :
  forall seen, NoDup seen -> NoDup (first_seen seen ids).
Proof.
  induction ids as [|i ids IH]; intros seen ND; simpl; [exact ND|].
  apply IH. destruct (existsb (Z.eqb i) seen) eqn:E; [exact ND|].
  apply NoDup_app; [exact ND | repeat constructor; simpl; tauto |].
  intros x Hx [<-|[]].
  assert (existsb (Z.eqb i) seen = true); [|congruence].
  apply existsb_exists. exists i. split; [exact Hx | apply Z.eqb_refl].
Qed.

Lemma fused_keys_NoDup k_rrf (ls : list (list (SearchHit R))) :
  NoDup (dict_keys (rrf_fused_scores (F:=F) k_rrf ls)).
Proof. rewrite dict_keys_fused. apply first_seen_NoDup. constructor. Qed.

End FusionScores.

(** ** Positions in a list *)

Section Precedes.
Context {A : Type}.

Lemma precedes_cons_inv (a b y : A) (l : list A) :
  precedes a b (y :: l) -> (a = y /\ In b l) \/ precedes a b l.
Proof.
  intros (l1 & l2 & l3 & E). destruct l1 as [|z l1]; simpl in E.
  - injection E as -> ->. left. split; [reflexivity|].
    apply in_or_app. right. left. reflexivity.
  - injection E as -> ->. right. exists l1, l2, l3. reflexivity.
Qed.

Lemma precedes_cons (a b y : A) (l : list A) :
  precedes a b l -> precedes a b (y :: l).
Proof. intros (l1 & l2 & l3 & ->). exists (y :: l1), l2, l3. reflexivity. Qed.

Lemma precedes_head (a b : A) (l : list A) : In b l -> precedes a b (a :: l).
Proof.
  intros H. apply in_split in H as (l2 & l3 & ->). exists [], l2, l3. reflexivity.
Qed.

Lemma precedes_In (a b : A) (l : list A) : precedes a b l -> In a l /\ In b l.
Proof.
  intros (l1 & l2 & l3 & ->). split; apply in_or_app; right.
  - left. reflexivity.
  - right. apply in_or_app. right. left. reflexivity.
Qed.

Lemma precedes_map {B} (f : A -> B) (a b : A) (l : list A) :
  precedes a b l -> precedes (f a) (f b) (map f l).
Proof.
  intros (l1 & l2 & l3 & ->). exists (map f l1), (map f l2), (map f l3).
  rewrite map_app. simpl. rewrite map_app. reflexivity.
Qed.

Lemma precedes_map_inv {B} (f : A -> B) (x y : B) (l : list A) :
  precedes x y (map f l) ->
  exists a b, x = f a /\ y = f b /\ precedes a b l.
Proof.
  intros (m1 & m2 & m3 & E).
  apply map_eq_app in E as (l1 & r1 & -> & <- & E).
  destruct r1 as [|a r1]; [discriminate|]. simpl in E. injection E as <- E.
  apply map_eq_app in E as (l2 & r2 & -> & <- & E).
  destruct r2 as [|b r2]; [discriminate|]. simpl in E. injection E as <- <-.
  exists a, b. repeat split. exists l1, l2, r2. reflexivity.
Qed.

Lemma StronglySorted_precedes (Rel : A -> A -> Prop) (l : list A) :
  StronglySorted Rel l -> forall a b, precedes a b l -> Rel a b.
Proof.
  induction 1 as [|y l SS IH Hall]; intros a b P.
  - destruct P as ([|? ?] & ? & ? & ?); discriminate.
  - apply precedes_cons_inv in P as [[-> Hb]|P]; [|auto].
    rewrite Forall_forall in Hall. auto.
Qed.

End Precedes.

(** ** The sort *)

Section SortFacts.
Context {F : Type} {arith : ScoreArith F}.
Implicit Types (x y : Z * F) (l d : list (Z * F)).

Lemma insert_desc_perm x l : Permutation (insert_desc x l) (x :: l).
Proof.
  induction l as [|y l IH]; simpl; [reflexivity|].
  destruct (sltb (snd x) (snd y)); [|reflexivity].
  rewrite IH. apply perm_swap.
Qed.

Lemma sorted_desc_perm d : Permutation (sorted_desc d) d.
Proof.
  induction d as [|x d IH]; simpl; [constructor|].
  rewrite insert_desc_perm. constructor. exact IH.
Qed.

Lemma sorted_desc_In d x : In x (sorted_desc d) <-> In x d.
Proof.
  split; apply Permutation_in; [|symmetry]; apply sorted_desc_perm.
Qed.

(** Where the inserted item lands, told by the pairs the result orders. *)
Lemma insert_desc_precedes x l a b :
  precedes a b (insert_desc x l) ->
  precedes a b l \/ (a = x /\ In b l) \/
  (b = x /\ In a l /\ sltb (snd x) (snd a) = true).
Proof.
  induction l as [|y l IH]; simpl.
  - intros P. apply precedes_cons_inv in P as [[_ []]|P].
    destruct P as ([|? ?] & ? & ? & ?); discriminate.
  - destruct (sltb (snd x) (snd y)) eqn:E; intros P.
    + apply precedes_cons_inv in P as [[-> Hb]|P].
      * apply (Permutation_in _ (insert_desc_perm x l)) in Hb as [<-|Hb].
        -- right. right. simpl. auto.
        -- left. apply precedes_head, Hb.
      * apply IH in P as [P|[[-> Hb]|(-> & Ha & Hlt)]].
        -- left. apply precedes_cons, P.
        -- right. left. simpl. auto.
        -- right. right. simpl. auto.
    + apply precedes_cons_inv in P as [[-> Hb]|P]; auto.
Qed.

(** Stability: two items keep their order unless the later one has the
    strictly larger score. *)
Lemma sorted_desc_stable d a b :
  precedes a b (sorted_desc d) -> sltb (snd b) (snd a) = false -> precedes a b d.
Proof.
  revert a b. induction d as [|x d IH]; simpl; intros a b P T.
  - destruct P as ([|? ?] & ? & ? & ?); discriminate.
  - apply insert_desc_precedes in P as [P|[[-> Hb]|(-> & _ & Hlt)]].
    + apply precedes_cons, IH; assumption.
    + apply precedes_head, sorted_desc_In, Hb.
    + congruence.
Qed.

Lemma insert_desc_sorted (dom : list F) x l :
  comparable dom -> In (snd x) dom -> Forall (fun y => In (snd y) dom) l ->
  StronglySorted score_ge l -> StronglySorted score_ge (insert_desc x l).
Proof.
  intros [asym ntrans] Hx. induction l as [|y l IH]; simpl; intros Hdom SS.
  - repeat constructor.
  - inversion Hdom as [|? ? Hy Hl]; subst.
    apply StronglySorted_inv in SS as [SS Hall].
    destruct (sltb (snd x) (snd y)) eqn:E.
    + constructor; [auto|].
      apply (Permutation_Forall (Permutation_sym (insert_desc_perm x l))).
      constructor; [apply asym; assumption | exact Hall].
    + constructor; [constructor; assumption|].
      constructor; [exact E|].
      rewrite Forall_forall in Hall, Hl |- *. intros z Hz.
      apply (ntrans _ (snd y)); auto. apply Hall, Hz.
Qed.

Lemma sorted_desc_sorted d :
  comparable (map snd d) -> StronglySorted score_ge (sorted_desc d).
Proof.
  intros C.
  assert (H : forall d', incl d' d -> StronglySorted score_ge (sorted_desc d')).
  { induction d' as [|x d' IH]; simpl; intros Hi; [constructor|].
    eapply insert_desc_sorted; [exact C | | |].
    - apply in_map, Hi. left. reflexivity.
    - apply Forall_forall. intros y Hy. apply in_map, Hi. right.
      apply sorted_desc_In, Hy.
    - apply IH. intros y Hy. apply Hi. right. exact Hy. }
  apply H, incl_refl.
Qed.

Lemma comparable_incl (l l' : list F) :
  incl l' l -> comparable l -> comparable l'.
Proof. intros Hi [asym ntrans]. split; intros; eauto. Qed.

Lemma comparableb_sound (l : list F) : comparableb l = true -> comparable l.
Proof.
  unfold comparableb. intros H. rewrite forallb_forall in H. split.
  - intros a b Ha Hb Hab. specialize (H a Ha). rewrite forallb_forall in H.
    specialize (H b Hb). apply andb_prop in H as [H _].
    rewrite Hab in H. simpl in H. apply negb_true_iff, H.
  - intros a b c Ha Hb Hc Hab Hbc. specialize (H a Ha).
    rewrite forallb_forall in H. specialize (H b Hb).
    apply andb_prop in H as [_ H]. rewrite forallb_forall in H.
    specialize (H c Hc). rewrite Hab, Hbc in H. simpl in H.
    apply negb_true_iff, H.
Qed.

End SortFacts.

(** ** Fusion reads ids only *)

Section FusionIds.
Context {F : Type} {arith : ScoreArith F} {R R' : Type}.

Lemma rrf_accumulate_ids (k_rrf : Z) (d : dict F) (rank : nat)
    (doc : SearchHit R) (doc' : SearchHit R') :
  hit_id doc = hit_id doc' ->
  rrf_accumulate k_rrf d rank doc = rrf_accumulate k_rrf d rank doc'.
Proof. unfold rrf_accumulate. intros ->. reflexivity. Qed.

Lemma rrf_scan_ids (k_rrf : Z) (l : list (SearchHit R)) :
  forall (l' : list (SearchHit R')) (d : dict F) (rank : nat),
    map (@hit_id R) l = map (@hit_id R') l' ->
    rrf_scan k_rrf d rank l = rrf_scan k_rrf d rank l'.
Proof.
  induction l as [|doc l IH]; intros [|doc' l'] d rank E;
    simpl in E; try discriminate; [reflexivity|].
  injection E as Eid El. simpl.
  rewrite (rrf_accumulate_ids k_rrf d rank doc doc' Eid).
  apply IH, El.
Qed.

Lemma rrf_fused_scores_ids (k_rrf : Z) (ls : list (list (SearchHit R))) :
  forall (ls' : list (list (SearchHit R'))),
    map (map (@hit_id R)) ls = map (map (@hit_id R')) ls' ->
    rrf_fused_scores (F:=F) k_rrf ls = rrf_fused_scores k_rrf ls'.
Proof.
  unfold rrf_fused_scores. generalize (@nil (Z * F)).
  induction ls as [|l ls IH]; intros d [|l' ls'] E;
    simpl in E; try discriminate; [reflexivity|].
  injection E as El Els. simpl.
  rewrite (rrf_scan_ids k_rrf l l' d 0 El). apply IH, Els.
Qed.

(** C9.  Two runs whose source lists carry the same ids in the same order
    give the same fused list, ids and fused scores alike, whatever the raw
    scores (and even the type of the raw scores) are. *)
Theorem rrf_ignores_raw_scores (k_rrf : Z)
    (ls : list (list (SearchHit R))) (ls' : list (list (SearchHit R'))) :
  map (map (@hit_id R)) ls = map (map (@hit_id R')) ls' ->
  _reciprocal_rank_fusion (F:=F) ls k_rrf = _reciprocal_rank_fusion ls' k_rrf.
Proof.
  intros E. unfold _reciprocal_rank_fusion.
  rewrite (rrf_fused_scores_ids k_rrf ls ls' E). reflexivity.
Qed.

End FusionIds.

(** Witness of C9: an FTS5 rank and a cosine similarity against two other
    raw scores, on binary64. *)
Lemma rrf_ignores_raw_scores_witness :
  _reciprocal_rank_fusion (F:=float)
    [[mkHit 5 (-7.5)%float; mkHit 9 (-2.25)%float]; [mkHit 9 0.75%float]] K_RRF
  = _reciprocal_rank_fusion
    [[mkHit 5 1%float; mkHit 9 2%float]; [mkHit 9 0.5%float]] K_RRF.
Proof. apply rrf_ignores_raw_scores. reflexivity. Defined.

(** ** The fused score of an id *)

Section FusedScore.
Context {F : Type} {arith : ScoreArith F} {R : Type}.
Implicit Types (l kw vec : list (SearchHit R)).

Lemma rank_from_None (i : Z) l :
  forall rank, ~ In i (map (@hit_id R) l) -> rank_from i rank l = None.
Proof.
  induction l as [|doc l IH]; intros rank H; simpl; [reflexivity|].
  simpl in H. destruct (hit_id doc =? i) eqn:E.
  - apply Z.eqb_eq in E. tauto.
  - apply IH. tauto.
Qed.

Lemma rrf_terms_notin k_rrf (i : Z) l :
  forall rank, ~ In i (map (@hit_id R) l) -> rrf_terms (F:=F) k_rrf i rank l = [].
Proof.
  induction l as [|doc l IH]; intros rank H; simpl; [reflexivity|].
  simpl in H. destruct (hit_id doc =? i) eqn:E.
  - apply Z.eqb_eq in E. tauto.
  - apply IH. tauto.
Qed.

(** A list that holds each id once gives an id one term, at its rank. *)
Lemma rrf_terms_unique k_rrf (i : Z) l :
  forall rank, NoDup (map (@hit_id R) l) ->
    rrf_terms (F:=F) k_rrf i rank l =
    match rank_from i rank l with
    | Some r => [recip (k_rrf + Z.of_nat r + 1)]
    | None => []
    end.
Proof.
  induction l as [|doc l IH]; intros rank ND; simpl; [reflexivity|].
  simpl in ND. inversion ND as [|? ? Hnotin ND']; subst.
  destruct (hit_id doc =? i) eqn:E.
  - apply Z.eqb_eq in E. subst i. rewrite rrf_terms_notin by assumption.
    reflexivity.
  - apply IH, ND'.
Qed.

(** The fused list and the dict hold the same entries. *)
Lemma fused_In_dict (ls : list (list (SearchHit R))) k_rrf (i : Z) (s : F) :
  In (mkFused i s) (_reciprocal_rank_fusion ls k_rrf) <->
  dict_get (rrf_fused_scores k_rrf ls) i = Some s.
Proof.
  unfold _reciprocal_rank_fusion. rewrite in_map_iff. split.
  - intros ([i' s'] & E & H). simpl in E. injection E as -> ->.
    apply (proj1 (sorted_desc_In _ _)) in H.
    apply dict_In_get; [apply fused_keys_NoDup | exact H].
  - intros G. exists (i, s). split; [reflexivity|].
    apply sorted_desc_In, dict_get_In, G.
Qed.

(** C1.  For a keyword list and a vector list that each hold an id at most
    once, the fused list has an entry for id [i] with score [s] exactly when
    [s] is the sum of [1/(60 + r + 1)] over the lists that hold [i], [r]
    being the rank of [i] in the list: one term for an id of one list, the
    two terms added for an id of both.  (The sum starts from the int 0; in
    binary64 0 + x is x.) *)
Theorem rrf_score_is_rank_sum kw vec (i : Z) (s : F) :
  NoDup (map (@hit_id R) kw) -> NoDup (map (@hit_id R) vec) ->
  (In (mkFused i s) (_reciprocal_rank_fusion [kw; vec] K_RRF) <->
   rrf_sum kw vec i = Some s).
Proof.
  intros NDk NDv. rewrite fused_In_dict.
  unfold rrf_fused_scores, rrf_sum, rank_of, K_RRF. simpl.
  rewrite !dict_get_scan, !rrf_terms_unique by assumption. simpl.
  destruct (rank_from i 0 kw) as [r1|], (rank_from i 0 vec) as [r2|];
    simpl; reflexivity.
Qed.

End FusedScore.

(** Witness of C1, on binary64: id 1 stands at rank 0 of both lists and
    scores 1/61 + 1/61. *)
Lemma rrf_score_is_rank_sum_witness :
  In (mkFused 1 (sadd (sadd szero (recip 61)) (recip 61)))
     (_reciprocal_rank_fusion (F:=float)
        [[mkHit 1 tt; mkHit 4 tt]; [mkHit 1 tt]] K_RRF).
Proof.
  apply rrf_score_is_rank_sum.
  - simpl. repeat constructor; simpl; intuition lia.
  - simpl. repeat constructor; simpl; intuition lia.
  - vm_compute. reflexivity.
Defined.

(** ** The order of the fused list *)

Section FusedOrder.
Context {F : Type} {arith : ScoreArith F} {R : Type}.
Implicit Types (ls : list (list (SearchHit R))).

Lemma fused_ids ls k_rrf :
  map (@fused_id F) (_reciprocal_rank_fusion ls k_rrf) =
  dict_keys (sorted_desc (rrf_fused_scores k_rrf ls)).
Proof.
  unfold _reciprocal_rank_fusion, dict_keys. rewrite map_map. reflexivity.
Qed.

Lemma fused_scores_out ls k_rrf :
  map (@fused_score F) (_reciprocal_rank_fusion ls k_rrf) =
  map snd (sorted_desc (rrf_fused_scores k_rrf ls)).
Proof. unfold _reciprocal_rank_fusion. rewrite map_map. reflexivity. Qed.

(** Each id has one entry in the fused list. *)
Lemma fused_ids_NoDup ls k_rrf :
  NoDup (map (@fused_id F) (_reciprocal_rank_fusion ls k_rrf)).
Proof.
  rewrite fused_ids.
  apply (Permutation_NoDup (l:=dict_keys (rrf_fused_scores k_rrf ls))).
  - symmetry. apply Permutation_map, sorted_desc_perm.
  - apply fused_keys_NoDup.
Qed.

(** C2, as the code has it.  Where [<] orders the fused scores (no NaN),
    the fused list holds each id once, no entry scores less than an entry
    behind it, and of two entries with tied scores the one whose id the scan
    met first (keyword list first, each list in rank order) comes first.
    So the order is a function of the ids and their ranks alone. *)
Theorem rrf_sorted_ties_first_seen ls k_rrf :
  let out := _reciprocal_rank_fusion (F:=F) ls k_rrf in
  comparable (map (@fused_score F) out) ->
  NoDup (map (@fused_id F) out) /\
  (forall a b, precedes a b out ->
     sltb (fused_score a) (fused_score b) = false) /\
  (forall a b, precedes a b out ->
     sltb (fused_score b) (fused_score a) = false ->
     precedes (fused_id a) (fused_id b)
       (first_seen [] (List.concat (map (map (@hit_id R)) ls)))).
Proof.
  intros out C. split; [apply fused_ids_NoDup|]. split.
  - intros a b P. unfold out, _reciprocal_rank_fusion in P.
    apply precedes_map_inv in P as (x & y & -> & -> & P). simpl.
    revert x y P. apply StronglySorted_precedes.
    apply sorted_desc_sorted. revert C. apply comparable_incl.
    unfold out. rewrite fused_scores_out. intros s Hs.
    apply in_map_iff in Hs as (x & <- & Hx). apply in_map, sorted_desc_In, Hx.
  - intros a b P T. unfold out, _reciprocal_rank_fusion in P.
    apply precedes_map_inv in P as (x & y & -> & -> & P). simpl in *.
    rewrite <- (dict_keys_fused (F:=F) k_rrf).
    apply (precedes_map fst), sorted_desc_stable; assumption.
Qed.

End FusedOrder.

(** Witness of C2 as amended, on binary64: id 9 of both lists leads, ids 5
    and 3 tie at 1/61 and stay in the order of their appearance. *)
Lemma rrf_sorted_ties_first_seen_witness :
  let out := _reciprocal_rank_fusion (F:=float)
               [[mkHit 5 tt; mkHit 9 tt]; [mkHit 3 tt; mkHit 9 tt]] K_RRF in
  map (@fused_id float) out = [9; 5; 3] /\
  (forall a b, precedes a b out -> sltb (fused_score a) (fused_score b) = false).
Proof.
  intros out. split; [vm_compute; reflexivity|].
  apply (rrf_sorted_ties_first_seen
           [[mkHit 5 tt; mkHit 9 tt]; [mkHit 3 tt; mkHit 9 tt]] K_RRF).
  apply comparableb_sound. vm_compute. reflexivity.
Defined.

(** Counterexample to C2 as worded.  The keyword source returns id 5 and
    the vector source id 3, both at rank 0: they tie at 1/61 and come out
    as 5, 3, the higher id first. *)
Lemma rrf_ties_not_by_ascending_id :
  _reciprocal_rank_fusion (F:=float) [[mkHit 5 tt]; [mkHit 3 tt]] K_RRF
    = [mkFused 5 (sadd szero (recip 61)); mkFused 3 (sadd szero (recip 61))] /\
  ~ ties_by_ascending_id
      (_reciprocal_rank_fusion (F:=float) [[mkHit 5 tt]; [mkHit 3 tt]] K_RRF).
Proof.
  split; [vm_compute; reflexivity|].
  intros H.
  specialize (H (mkFused 5 (sadd szero (recip 61)))
                (mkFused 3 (sadd szero (recip 61)))).
  assert (L : 5 < 3); [|lia].
  apply H.
  - exists [], [], []. vm_compute. reflexivity.
  - vm_compute. reflexivity.
Qed.

(** ** Slices *)

Section SliceFacts.
Context {A : Type}.

Lemma slice_prefix (l : list A) (k : Z) :
  0 <= k -> slice l 0 k = firstn (Z.to_nat k) l.
Proof.
  intros Hk. unfold slice, slice_bound.
  destruct (k <? 0) eqn:E; [apply Z.ltb_lt in E; lia|]. simpl.
  rewrite Nat.sub_0_r.
  destruct (Nat.le_ge_cases (Z.to_nat k) (length l)) as [H|H].
  - rewrite Nat.min_l by exact H. reflexivity.
  - rewrite Nat.min_r by exact H. rewrite !firstn_all2; [reflexivity|exact H|lia].
Qed.

Lemma slice_piece (l : list A) (start stop : Z) :
  exists pre post, l = pre ++ slice l start stop ++ post.
Proof.
  unfold slice.
  exists (firstn (slice_bound (length l) start) l),
         (skipn (slice_bound (length l) stop - slice_bound (length l) start)
                (skipn (slice_bound (length l) start) l)).
  rewrite !firstn_skipn. reflexivity.
Qed.

Lemma slice_NoDup {B} (f : A -> B) (l : list A) (start stop : Z) :
  NoDup (map f l) -> NoDup (map f (slice l start stop)).
Proof.
  destruct (slice_piece l start stop) as (pre & post & E).
  rewrite E at 1. rewrite !map_app. intros ND.
  apply NoDup_app_remove_l in ND. apply NoDup_app_remove_r in ND. exact ND.
Qed.

End SliceFacts.

(** ** Hydration *)

Section HydrateFacts.

Lemma find_app_first {A} (p : A -> bool) (l1 l2 : list A) :
  find p (l1 ++ l2) =
  match find p l1 with Some x => Some x | None => find p l2 end.
Proof.
  induction l1 as [|a l1 IH]; simpl; [reflexivity|].
  destruct (p a); [reflexivity | exact IH].
Qed.

(** The dict comprehension keeps, for each id, the last row that has it. *)
Lemma results_map_get (rows : list ParagraphRecord) (i : Z) :
  dict_get (results_map_of rows) i = find (fun r => rec_id r =? i) (rev rows).
Proof.
  unfold results_map_of.
  enough (H : forall m,
             dict_get (fold_left (fun m row => dict_set m (rec_id row) row) rows m) i
             = match find (fun r => rec_id r =? i) (rev rows) with
               | Some r => Some r
               | None => dict_get m i
               end).
  { rewrite H. simpl. destruct (find _ _); reflexivity. }
  induction rows as [|row rows IH]; intros m; simpl; [reflexivity|].
  rewrite IH, find_app_first, dict_get_set. simpl.
  destruct (find _ (rev rows)); [reflexivity|].
  destruct (rec_id row =? i); reflexivity.
Qed.

Lemma results_map_key (rows : list ParagraphRecord) (i : Z) (r : ParagraphRecord) :
  dict_get (results_map_of rows) i = Some r -> rec_id r = i /\ In r rows.
Proof.
  rewrite results_map_get. intros H. apply find_some in H as [Hin E].
  split; [apply Z.eqb_eq, E | apply in_rev, Hin].
Qed.

Lemma results_map_mem (table : list ParagraphRecord) (ids : list Z) (i : Z) :
  In i ids ->
  dict_mem i (results_map_of
                (filter (fun row => existsb (Z.eqb (rec_id row)) ids) table))
  = has_record table i.
Proof.
  intros Hi. unfold dict_mem, has_record. rewrite results_map_get.
  apply eq_true_iff_eq. rewrite existsb_exists.
  destruct (find _ _) as [r|] eqn:E.
  - apply find_some in E as [Hin E]. apply in_rev, filter_In in Hin as [Hin _].
    split; [|reflexivity]. intros _. exists r. auto.
  - split; [discriminate|]. intros (r & Hin & Er). exfalso.
    assert (Hf : (rec_id r =? i) = false); [|congruence].
    apply (find_none _ _ E). apply in_rev. rewrite rev_involutive.
    apply filter_In. split; [exact Hin|].
    apply existsb_exists. exists i. split; [exact Hi|]. exact Er.
Qed.

(** The ids of the hydrated list: the ids asked for that the map knows. *)
Lemma hydrated_ids (m : dict ParagraphRecord) (ids : list Z) :
  (forall i r, dict_get m i = Some r -> rec_id r = i) ->
  map rec_id (flat_map (fun doc_id => match dict_get m doc_id with
                                      | Some doc => [doc]
                                      | None => []
                                      end) ids)
  = filter (fun i => dict_mem i m) ids.
Proof.
  intros K. induction ids as [|i ids IH]; simpl; [reflexivity|].
  rewrite map_app, IH. unfold dict_mem at 2.
  destruct (dict_get m i) as [r|] eqn:G; simpl; [|reflexivity].
  rewrite (K _ _ G). reflexivity.
Qed.

Lemma filter_ext_In_bool {A} (f g : A -> bool) (l : list A) :
  (forall x, In x l -> f x = g x) -> filter f l = filter g l.
Proof.
  induction l as [|a l IH]; simpl; intros H; [reflexivity|].
  rewrite (H a) by auto. rewrite IH by auto. reflexivity.
Qed.

End HydrateFacts.

Section RetrieveFacts.
Context {F : Type} {arith : ScoreArith F} {U : Unicode}.
Variable self : HybridRetriever F.

Lemma hydrate_returns (fused : list (FusedHit F)) (k : Z)
    (table : list ParagraphRecord) :
  documents self = Returns table ->
  exists docs,
    hydrate self fused k = Returns docs /\
    map rec_id docs
      = filter (has_record table) (map (@fused_id F) (slice fused 0 k)) /\
    Forall (fun doc => In doc table) docs.
Proof.
  intros D. unfold hydrate. rewrite D. simpl.
  eexists. split; [reflexivity|]. split.
  - rewrite hydrated_ids by (intros i r G; apply (results_map_key _ _ G)).
    apply filter_ext_In_bool. intros i Hi. apply results_map_mem, Hi.
  - apply Forall_forall. intros doc Hd.
    apply in_flat_map in Hd as (i & _ & Hd).
    destruct (dict_get _ i) as [r|] eqn:G; [|destruct Hd].
    destruct Hd as [<-|[]]. apply results_map_key in G as [_ G].
    apply filter_In in G as [G _]. exact G.
Qed.

Lemma hydrate_ids_NoDup (fused : list (FusedHit F)) (k : Z)
    (docs : list ParagraphRecord) :
  NoDup (map (@fused_id F) fused) ->
  hydrate self fused k = Returns docs -> NoDup (map rec_id docs).
Proof.
  intros ND H. unfold hydrate in H.
  destruct (documents self) as [table|e]; simpl in H; [|discriminate].
  injection H as <-.
  rewrite hydrated_ids by (intros i r G; apply (results_map_key _ _ G)).
  apply NoDup_filter, slice_NoDup, ND.
Qed.

Lemma retrieve_of_searches (q : pystr) (k : Z) (kw vec : list (SearchHit F)) :
  _search_sqlite self q k = Returns kw ->
  _search_qdrant self q k = Returns vec ->
  retrieve self q k = retrieve_from self kw vec k.
Proof.
  intros Hk Hv. unfold retrieve, retrieve_from. rewrite Hk, Hv. simpl.
  destruct (_reciprocal_rank_fusion _ _); reflexivity.
Qed.

Lemma search_qdrant_returns (q : pystr) (k : Z) :
  exists vec, _search_qdrant self q k = Returns vec.
Proof.
  unfold _search_qdrant. destruct (qdrant_search self q k); eauto.
Qed.

End RetrieveFacts.

(** ** retrieve *)

Section RetrieveProperties.
Context {F : Type} {arith : ScoreArith F} {U : Unicode}.
Variable self : HybridRetriever F.

Lemma NoDup_map_inj {A B} (f : A -> B) (l : list A) (a b : A) :
  NoDup (map f l) -> In a l -> In b l -> f a = f b -> a = b.
Proof.
  induction l as [|x l IH]; simpl; [tauto|].
  intros ND Ha Hb E. inversion ND as [|? ? Hnotin ND']; subst.
  destruct Ha as [->|Ha], Hb as [->|Hb]; auto.
  - exfalso. apply Hnotin. rewrite E. apply in_map, Hb.
  - exfalso. apply Hnotin. rewrite <- E. apply in_map, Ha.
Qed.

(** C3.  When the keyword backend raises its [sqlite3.Error] and the vector
    search returns, or the vector search raises anything and the keyword
    search returns, the failed source counts as the empty list and
    [retrieve] is what the other source's hits alone give.  In particular,
    with the keyword backend down, the vector source returning id 7 alone, a
    readable table whose row 7 is [r7] and [k >= 1], [retrieve] returns
    [[r7]]. *)
Theorem retrieve_survives_one_fault (q : pystr) (k : Z) :
  (forall vhits,
     fts_match self (_sanitize_fts_query q) k = Raises Sqlite3Error ->
     qdrant_search self q k = Returns vhits ->
     _search_sqlite self q k = Returns [] /\
     retrieve self q k = retrieve_from self [] vhits k) /\
  (forall khits e,
     fts_match self (_sanitize_fts_query q) k = Returns khits ->
     qdrant_search self q k = Raises e ->
     _search_qdrant self q k = Returns [] /\
     retrieve self q k = retrieve_from self khits [] k) /\
  (forall s table r7,
     fts_match self (_sanitize_fts_query q) k = Raises Sqlite3Error ->
     qdrant_search self q k = Returns [mkHit 7 s] ->
     documents self = Returns table ->
     NoDup (map rec_id table) -> In r7 table -> rec_id r7 = 7 ->
     1 <= k ->
     retrieve self q k = Returns [r7]).
Proof.
  assert (A1 : forall vhits,
     fts_match self (_sanitize_fts_query q) k = Raises Sqlite3Error ->
     qdrant_search self q k = Returns vhits ->
     _search_sqlite self q k = Returns [] /\
     retrieve self q k = retrieve_from self [] vhits k).
  { intros vhits Hk Hv.
    assert (Sk : _search_sqlite self q k = Returns []).
    { unfold _search_sqlite. rewrite Hk. reflexivity. }
    split; [exact Sk|]. apply retrieve_of_searches; [exact Sk|].
    unfold _search_qdrant. rewrite Hv. reflexivity. }
  split; [exact A1|]. split.
  - intros khits e Hk Hv.
    assert (Sv : _search_qdrant self q k = Returns []).
    { unfold _search_qdrant. rewrite Hv. reflexivity. }
    split; [exact Sv|]. apply retrieve_of_searches; [|exact Sv].
    unfold _search_sqlite. rewrite Hk. reflexivity.
  - intros s table r7 Hk Hv D ND Hin Hid Hk1.
    destruct (A1 _ Hk Hv) as [_ ->].
    unfold retrieve_from, _reciprocal_rank_fusion, rrf_fused_scores. simpl.
    unfold hydrate. rewrite D, slice_prefix by lia. simpl.
    destruct (Z.to_nat k) as [|n] eqn:En; [lia|]. simpl.
    rewrite firstn_nil. simpl. rewrite results_map_get.
    assert (Hr : In r7 (rev (filter
               (fun row => existsb (Z.eqb (rec_id row)) [7]) table))).
    { apply in_rev. rewrite rev_involutive. apply filter_In.
      split; [exact Hin|]. rewrite Hid. reflexivity. }
    destruct (find _ _) as [x|] eqn:E.
    + apply find_some in E as [Hx Ex]. apply Z.eqb_eq in Ex.
      apply in_rev, filter_In in Hx as [Hx _].
      rewrite (NoDup_map_inj rec_id table x r7 ND Hx Hin); [simpl; reflexivity|congruence].
    + apply (find_none _ _ E) in Hr. rewrite Hid in Hr. discriminate.
Qed.

(** C4.  With a keyword backend that raises nothing but [sqlite3.Error], a
    readable table and [k >= 0], [retrieve] returns a list of at most [k]
    rows of the table whose ids are those of the first [k] fused entries, in
    the fused order, the ids without a row left out; and two empty hit
    lists give the empty list, whatever the state of the table. *)
Theorem retrieve_top_k (q : pystr) (k : Z) :
  (forall table,
     sqlite_faults_only (fts_match self (_sanitize_fts_query q) k) ->
     documents self = Returns table ->
     0 <= k ->
     exists kw vec docs,
       _search_sqlite self q k = Returns kw /\
       _search_qdrant self q k = Returns vec /\
       retrieve self q k = Returns docs /\
       Z.of_nat (length docs) <= k /\
       map rec_id docs
         = filter (has_record table)
             (map (@fused_id F)
                (firstn (Z.to_nat k)
                   (_reciprocal_rank_fusion [kw; vec] K_RRF))) /\
       Forall (fun doc => In doc table) docs) /\
  (_search_sqlite self q k = Returns [] ->
   _search_qdrant self q k = Returns [] ->
   retrieve self q k = Returns []).
Proof.
  split.
  - intros table Hf D Hk.
    assert (Sk : exists kw, _search_sqlite self q k = Returns kw).
    { unfold _search_sqlite.
      destruct (fts_match self (_sanitize_fts_query q) k) as [rows|e] eqn:E;
        [eauto|].
      rewrite (Hf e eq_refl). eauto. }
    destruct Sk as [kw Sk].
    destruct (search_qdrant_returns self q k) as [vec Sv].
    exists kw, vec.
    rewrite (retrieve_of_searches self q k Sk Sv). unfold retrieve_from.
    destruct (hydrate_returns self (_reciprocal_rank_fusion [kw; vec] K_RRF) k D)
      as (docs & Hh & Hids & Hall).
    rewrite slice_prefix in Hids by exact Hk.
    assert (Hlen : forall ds : list ParagraphRecord,
              map rec_id ds
              = filter (has_record table)
                  (map (@fused_id F)
                     (firstn (Z.to_nat k)
                        (_reciprocal_rank_fusion [kw; vec] K_RRF))) ->
              Z.of_nat (length ds) <= k).
    { intros ds E. rewrite <- (length_map rec_id), E.
      pose proof (filter_length_le (has_record table)
                    (map (@fused_id F)
                       (firstn (Z.to_nat k)
                          (_reciprocal_rank_fusion [kw; vec] K_RRF)))) as L1.
      rewrite length_map in L1.
      pose proof (firstn_le_length (Z.to_nat k)
                    (_reciprocal_rank_fusion [kw; vec] K_RRF)) as L2.
      lia. }
    destruct (_reciprocal_rank_fusion [kw; vec] K_RRF) as [|h fused] eqn:Ef.
    + exists []. split; [exact Sk|]. split; [exact Sv|].
      split; [reflexivity|]. split; [simpl; lia|].
      split; [rewrite firstn_nil; reflexivity | constructor].
    + exists docs. split; [exact Sk|]. split; [exact Sv|].
      split; [exact Hh|]. split; [apply Hlen, Hids|]. split; assumption.
  - intros Sk Sv. rewrite (retrieve_of_searches self q k Sk Sv). reflexivity.
Qed.

(** C10.  A list that [retrieve] returns holds each record id at most
    once. *)
Theorem retrieve_ids_distinct (q : pystr) (k : Z) (docs : list ParagraphRecord) :
  retrieve self q k = Returns docs -> NoDup (map rec_id docs).
Proof.
  unfold retrieve.
  destruct (_search_sqlite self q k) as [kw|e]; simpl; [|discriminate].
  destruct (_search_qdrant self q k) as [vec|e]; simpl; [|discriminate].
  destruct (_reciprocal_rank_fusion [kw; vec] K_RRF) as [|h fused] eqn:Ef.
  - intros [= <-]. constructor.
  - apply hydrate_ids_NoDup. rewrite <- Ef. apply fused_ids_NoDup.
Qed.

End RetrieveProperties.

(** Witness of C3, on binary64: the keyword backend raises, the vector
    source returns id 7; and the other way round, the vector search raises
    and the keyword source returns id 1. *)
Lemma retrieve_survives_one_fault_witness :
  retrieve (U:=latin_cyrillic)
    (retriever_of (F:=float) (Raises Sqlite3Error)
       (Returns [mkHit 7 0.5%float]) (Returns [record_1; record_7]))
    (lit "group III") TOP_K
  = Returns [record_7] /\
  retrieve (U:=latin_cyrillic)
    (retriever_of (F:=float) (Returns [mkHit 1 (-1.5)%float])
       (Raises OtherException) (Returns [record_1; record_7]))
    (lit "group III") TOP_K
  = retrieve_from
      (retriever_of (F:=float) (Returns [mkHit 1 (-1.5)%float])
         (Raises OtherException) (Returns [record_1; record_7]))
      [mkHit 1 (-1.5)%float] [] TOP_K.
Proof.
  split.
  - apply (proj2 (proj2 (retrieve_survives_one_fault (U:=latin_cyrillic)
             (retriever_of (F:=float) (Raises Sqlite3Error)
                (Returns [mkHit 7 0.5%float]) (Returns [record_1; record_7]))
             (lit "group III") TOP_K)))
      with (s := 0.5%float) (table := [record_1; record_7]).
    + reflexivity.
    + reflexivity.
    + reflexivity.
    + simpl. repeat constructor; simpl; intuition lia.
    + simpl. auto.
    + reflexivity.
    + unfold TOP_K. lia.
  - apply (proj1 (proj2 (retrieve_survives_one_fault (U:=latin_cyrillic)
             (retriever_of (F:=float) (Returns [mkHit 1 (-1.5)%float])
                (Raises OtherException) (Returns [record_1; record_7]))
             (lit "group III") TOP_K)))
      with (e := OtherException); reflexivity.
Defined.

(** Witness of C4, on binary64: ids 1 and 7 have rows, id 4 has none. *)
Lemma retrieve_top_k_witness :
  exists kw vec docs,
    _search_sqlite (U:=latin_cyrillic)
      (retriever_of (F:=float) (Returns [mkHit 4 (-2)%float; mkHit 7 (-1)%float])
         (Returns [mkHit 1 0.5%float]) (Returns [record_1; record_7]))
      (lit "group III") TOP_K = Returns kw /\
    _search_qdrant
      (retriever_of (F:=float) (Returns [mkHit 4 (-2)%float; mkHit 7 (-1)%float])
         (Returns [mkHit 1 0.5%float]) (Returns [record_1; record_7]))
      (lit "group III") TOP_K = Returns vec /\
    retrieve (U:=latin_cyrillic)
      (retriever_of (F:=float) (Returns [mkHit 4 (-2)%float; mkHit 7 (-1)%float])
         (Returns [mkHit 1 0.5%float]) (Returns [record_1; record_7]))
      (lit "group III") TOP_K = Returns docs /\
    Z.of_nat (length docs) <= TOP_K /\
    map rec_id docs
      = filter (has_record [record_1; record_7])
          (map (@fused_id float)
             (firstn (Z.to_nat TOP_K)
                (_reciprocal_rank_fusion [kw; vec] K_RRF))) /\
    Forall (fun doc => In doc [record_1; record_7]) docs.
Proof.
  apply (proj1 (retrieve_top_k (U:=latin_cyrillic)
           (retriever_of (F:=float)
              (Returns [mkHit 4 (-2)%float; mkHit 7 (-1)%float])
              (Returns [mkHit 1 0.5%float]) (Returns [record_1; record_7]))
           (lit "group III") TOP_K)).
  - intros e H. simpl in H. discriminate.
  - reflexivity.
  - unfold TOP_K. lia.
Defined.

(** Witness of C10, on binary64: id 1 comes from both sources and once out
    of [retrieve]. *)
Lemma retrieve_ids_distinct_witness :
  NoDup (map rec_id [record_1; record_7]).
Proof.
  apply (retrieve_ids_distinct (U:=latin_cyrillic)
           (retriever_of (F:=float)
              (Returns [mkHit 1 (-2)%float; mkHit 7 (-1)%float])
              (Returns [mkHit 1 0.5%float]) (Returns [record_1; record_7]))
           (lit "group III") TOP_K).
  vm_compute. reflexivity.
Defined.

(** The first scenario of the specification: both sources return id 1 at
    rank 0, its fused score is 1/61 + 1/61 and [retrieve("group III", 5)]
    is record 1. *)
Example scenario_group_III :
  _reciprocal_rank_fusion (F:=float) [[mkHit 1 (-1.5)%float]; [mkHit 1 0.5%float]] K_RRF
    = [mkFused 1 (sadd (sadd szero (recip 61)) (recip 61))] /\
  retrieve (U:=latin_cyrillic)
    (retriever_of (F:=float) (Returns [mkHit 1 (-1.5)%float])
       (Returns [mkHit 1 0.5%float]) (Returns [record_1]))
    (lit "group III") 5
  = Returns [record_1].
Proof. split; vm_compute; reflexivity. Qed.

(** ** The sanitized keyword search *)

Section SanitizeProperties.
Context {F : Type} {arith : ScoreArith F} {U : Unicode}.

Lemma sanitize_nth (q : pystr) (n : nat) (c : char) :
  nth_error q n = Some c ->
  nth_error (_sanitize_fts_query q) n
  = Some (if re_word c || isspace c then c else 32%N).
Proof.
  intros H. unfold _sanitize_fts_query. rewrite nth_error_map, H. reflexivity.
Qed.

Lemma sanitize_clean (q : pystr) :
  Forall (fun c => re_word c || isspace c = true) (_sanitize_fts_query q).
Proof.
  unfold _sanitize_fts_query. apply Forall_forall. intros c Hc.
  apply in_map_iff in Hc as (c0 & <- & _).
  destruct (re_word c0 || isspace c0) eqn:E; [exact E|].
  apply orb_true_iff. right. reflexivity.
Qed.

Lemma sanitize_punctuation (q : pystr) :
  Forall (fun c => re_word c || isspace c = false) q ->
  _sanitize_fts_query q = repeat 32%N (length q).
Proof.
  unfold _sanitize_fts_query. induction 1 as [|c q Hc _ IH]; simpl.
  - reflexivity.
  - rewrite Hc, IH. reflexivity.
Qed.

(** C5, as the code has it.  The query that reaches the backend has the
    length of the given one; a character that is a word character
    (alphanumeric or the underscore) or white space stands as it was, any
    other is a space, so a query of such characters alone is all spaces; and
    the search passes on what the backend returns and answers the backend's
    [sqlite3.Error] with the empty list, so it never ends in one. *)
Theorem sanitized_search_no_match_error (self : HybridRetriever F)
    (q : pystr) (k : Z) :
  length (_sanitize_fts_query q) = length q /\
  (forall n c, nth_error q n = Some c ->
     nth_error (_sanitize_fts_query q) n
     = Some (if re_word c || isspace c then c else 32%N)) /\
  Forall (fun c => re_word c || isspace c = true) (_sanitize_fts_query q) /\
  (Forall (fun c => re_word c || isspace c = false) q ->
     _sanitize_fts_query q = repeat 32%N (length q)) /\
  _search_sqlite self q k <> Raises Sqlite3Error /\
  (fts_match self (_sanitize_fts_query q) k = Raises Sqlite3Error ->
     _search_sqlite self q k = Returns []) /\
  (forall rows, fts_match self (_sanitize_fts_query q) k = Returns rows ->
     _search_sqlite self q k = Returns rows).
Proof.
  split; [apply length_map|]. split; [apply sanitize_nth|].
  split; [apply sanitize_clean|]. split; [apply sanitize_punctuation|].
  unfold _search_sqlite.
  destruct (fts_match self (_sanitize_fts_query q) k) as [rows|[]];
    repeat split; try discriminate; try reflexivity.
  intros rows' [= ->]. reflexivity.
Qed.

End SanitizeProperties.

(** Witness of C5 as amended: a query of punctuation alone reaches the
    backend as spaces, the backend raises on it and the search returns the
    empty list. *)
Lemma sanitized_search_no_match_error_witness :
  _sanitize_fts_query (U:=latin_cyrillic) (lit "?!*") = lit "   " /\
  _search_sqlite (U:=latin_cyrillic)
    (retriever_of (F:=float) (Raises Sqlite3Error) (Returns []) (Returns []))
    (lit "?!*") TOP_K
  = Returns [].
Proof.
  pose proof (sanitized_search_no_match_error (U:=latin_cyrillic)
                (retriever_of (F:=float) (Raises Sqlite3Error) (Returns [])
                   (Returns []))
                (lit "?!*") TOP_K) as (_ & _ & _ & P & _ & E & _).
  split.
  - apply P. repeat constructor.
  - apply E. reflexivity.
Defined.

(** Counterexample to C5 as worded.  The underscore is neither alphanumeric
    nor white space, and the sanitizer keeps it: [\w] matches it. *)
Lemma sanitize_keeps_underscore :
  isalnum (Unicode:=latin_cyrillic) 95%N || isspace 95%N = false /\
  _sanitize_fts_query (U:=latin_cyrillic) (lit "group_III") = lit "group_III" /\
  sanitize_as_worded (U:=latin_cyrillic) (lit "group_III") = lit "group III".
Proof. repeat split. Qed.

(** ** Fences around the terminal payload *)

Section FenceFacts.

Lemma rstrip_last (l : pystr) (c : char) :
  isspace c = false -> rstrip (l ++ [c]) = l ++ [c].
Proof.
  intros H. unfold rstrip. rewrite rev_app_distr. simpl. rewrite H.
  simpl. rewrite rev_involutive. reflexivity.
Qed.

Lemma strip_bounded (c d : char) (l : pystr) :
  isspace c = false -> isspace d = false ->
  strip (c :: l ++ [d]) = c :: l ++ [d].
Proof.
  intros Hc Hd. unfold strip. simpl. rewrite Hc.
  apply (rstrip_last (c :: l) d Hd).
Qed.

(** A slice that drops as many items in front and behind as two outer
    parts hold gives the part between them. *)
Lemma slice_middle {A} (pre mid post : list A) :
  post <> [] ->
  slice (pre ++ mid ++ post) (Z.of_nat (length pre)) (- Z.of_nat (length post))
  = mid.
Proof.
  intros Hp. assert (0 < length post)%nat by (destruct post; simpl; [tauto|lia]).
  unfold slice, slice_bound. rewrite !length_app.
  destruct (Z.of_nat (length pre) <? 0) eqn:E1; [apply Z.ltb_lt in E1; lia|].
  destruct (- Z.of_nat (length post) <? 0) eqn:E2; [|apply Z.ltb_ge in E2; lia].
  rewrite Nat2Z.id, Nat.min_l by lia.
  replace (Z.to_nat _ - length pre)%nat with (length mid) by lia.
  rewrite skipn_app, skipn_all, Nat.sub_diag. simpl.
  rewrite firstn_app, firstn_all, Nat.sub_diag. simpl. apply app_nil_r.
Qed.

Lemma strip_fenced (p : pystr) : strip (fenced p) = fenced p.
Proof.
  unfold fenced.
  change (lit "```json" ++ [10%N] ++ p ++ [10%N] ++ lit "```")
    with (96%N :: (lit "``json" ++ [10%N] ++ p ++ [10%N] ++ lit "``" ++ [96%N])).
  replace (lit "``json" ++ [10%N] ++ p ++ [10%N] ++ lit "``" ++ [96%N])
    with ((lit "``json" ++ [10%N] ++ p ++ [10%N] ++ lit "``") ++ [96%N]).
  - apply strip_bounded; reflexivity.
  - rewrite <- !app_assoc. reflexivity.
Qed.

Lemma slice_fenced (p : pystr) : slice (fenced p) 7 (-4) = 10%N :: p.
Proof.
  unfold fenced.
  change (lit "```json" ++ [10%N] ++ p ++ [10%N] ++ lit "```")
    with (lit "```json" ++ (10%N :: p) ++ (10%N :: lit "```")).
  apply (@slice_middle _ (lit "```json") (10%N :: p) (10%N :: lit "```")).
  discriminate.
Qed.

Lemma strip_fenced_tight (p : pystr) : strip (fenced_tight p) = fenced_tight p.
Proof.
  unfold fenced_tight.
  change (lit "```json" ++ [10%N] ++ p ++ lit "```")
    with (96%N :: (lit "``json" ++ [10%N] ++ p ++ lit "``" ++ [96%N])).
  replace (lit "``json" ++ [10%N] ++ p ++ lit "``" ++ [96%N])
    with ((lit "``json" ++ [10%N] ++ p ++ lit "``") ++ [96%N]).
  - apply strip_bounded; reflexivity.
  - rewrite <- !app_assoc. reflexivity.
Qed.

(** Without the line break before the closing fence, the fourth character
    from the end is the last one of the payload, and the slice takes it. *)
Lemma tight_fence_drops_last (p : pystr) :
  p <> [] ->
  slice (strip (fenced_tight p)) 7 (-4) = 10%N :: removelast p.
Proof.
  intros Hp. rewrite strip_fenced_tight. unfold fenced_tight.
  assert (E : lit "```json" ++ [10%N] ++ p ++ lit "```"
              = lit "```json" ++ (10%N :: removelast p)
                  ++ (last p 0%N :: lit "```")).
  { rewrite (app_removelast_last 0%N Hp) at 1. simpl.
    rewrite <- app_assoc. reflexivity. }
  rewrite E.
  apply (@slice_middle _ (lit "```json") (10%N :: removelast p)
           (last p 0%N :: lit "```")).
  discriminate.
Qed.

End FenceFacts.

Section FenceProperties.
Context {L : Libs}.

(** C7, as the code has it.  Of a payload fenced with a line break on each
    side, the handler parses the payload stripped of the white space
    around it: 7 characters go in front and 4 behind, the closing fence and
    the one character before it.  So it parses the same as the bare
    payload whenever the bare payload does not itself start with the
    opening fence and [json.loads] makes nothing of the white space that
    [strip] removes. *)
Theorem fenced_payload_parses_stripped (p : pystr) :
  strip_fence (fenced p) = strip p /\
  parse_terminal (fenced p) = json_loads (strip p) /\
  (startswith (strip p) (lit "```json") = false ->
   json_loads (strip p) = json_loads p ->
   parse_terminal (fenced p) = parse_terminal p).
Proof.
  assert (E : strip_fence (fenced p) = strip p).
  { unfold strip_fence. rewrite strip_fenced, slice_fenced.
    change (startswith (fenced p) (lit "```json")) with true. cbv iota.
    unfold strip. simpl. reflexivity. }
  split; [exact E|]. unfold parse_terminal. rewrite E.
  split; [reflexivity|].
  intros Hs ->. unfold strip_fence. rewrite Hs. reflexivity.
Qed.

End FenceProperties.

(** Witness of C7 as amended: the success example of the prompt, fenced as
    the prompt prints it. *)
Lemma fenced_payload_parses_stripped_witness :
  parse_terminal (L:=sample_libs) (fenced location_text) = Some location_value /\
  parse_terminal (L:=sample_libs) (fenced location_text)
  = parse_terminal (L:=sample_libs) location_text.
Proof.
  pose proof (fenced_payload_parses_stripped (L:=sample_libs) location_text)
    as (_ & P & Q).
  split.
  - rewrite P. vm_compute. reflexivity.
  - apply Q; vm_compute; reflexivity.
Defined.

(** Counterexample to C7 as worded.  With the closing fence right behind
    the payload, the slice takes the closing brace along with the fence:
    the text left is no JSON, the bare payload is. *)
Lemma tight_fence_loses_brace :
  strip_fence (fenced_tight location_text)
    = jlit "{'doc_id': 9, 'chapter_id': 5, 'paragraph_id': 434408" /\
  parse_terminal (L:=sample_libs) (fenced_tight location_text) = None /\
  parse_terminal (L:=sample_libs) location_text = Some location_value.
Proof. repeat split; vm_compute; reflexivity. Qed.

(** ** Outcomes at the boundary *)

Section BoundaryProperties.
Context {L : Libs}.

Lemma respond_output (s : pystr) :
  s <> [] ->
  respond (Returns (Output s)) =
  match parse_output s with
  | inr validated_result => Ok200 validated_result
  | inl (HTTPException status_code d) => HTTPError status_code d
  | inl (Exn e) => HTTPError 500 (InternalError e)
  end.
Proof. destruct s; [tauto | reflexivity]. Qed.

Lemma validate_location_inr (v : json) (loc : ParagraphLocation) :
  validate_location v = inr loc ->
  exists members a b c,
    v = JObj members /\
    obj_get members (lit "doc_id") = Some a /\
    obj_get members (lit "chapter_id") = Some b /\
    obj_get members (lit "paragraph_id") = Some c /\
    validate_int a = Some (doc_id loc) /\
    validate_int b = Some (chapter_id loc) /\
    validate_int c = Some (paragraph_id loc).
Proof.
  unfold validate_location. destruct v as [| | | | | |members]; try discriminate.
  destruct (obj_get members (lit "doc_id")) as [a|] eqn:Ga; [|discriminate].
  destruct (obj_get members (lit "chapter_id")) as [b|] eqn:Gb; [|discriminate].
  destruct (obj_get members (lit "paragraph_id")) as [c|] eqn:Gc; [|discriminate].
  destruct (validate_int a) as [x|] eqn:Ea; [|discriminate].
  destruct (validate_int b) as [y|] eqn:Eb; [|discriminate].
  destruct (validate_int c) as [z|] eqn:Ec; [|discriminate].
  intros [= <-]. exists members, a, b, c. simpl. repeat split; assumption.
Qed.

Lemma validate_location_missing (v : json) :
  has_location_fields v = false ->
  validate_location v =
  inl (Exn (match v with JObj _ => ValidationError | _ => TypeError end)).
Proof.
  unfold has_location_fields, validate_location.
  destruct v as [| | | | | |members]; try reflexivity.
  destruct (obj_get members (lit "doc_id")); [|reflexivity].
  destruct (obj_get members (lit "chapter_id")); [|reflexivity].
  destruct (obj_get members (lit "paragraph_id")); [discriminate|reflexivity].
Qed.

(** C8, as the code has it.  For a non-empty output whose text, fences
    removed, is [t]:
    - if [t] holds the marker and parses to an object, the outcome is 404
      with the member [error] of the object, or with the text
      [Justification not found] if the object has none;
    - if [t] does not parse, the outcome is 500, malformed output;
    - if [t] is free of the marker and parses to a value that lacks a field
      of a location, the outcome is 500: an internal error after pydantic's
      rejection of an object, malformed output for any other value;
    - the outcome is a success only for a [t] free of the marker that
      parses to an object with the three fields, each validated. *)
Theorem terminal_payload_outcomes (s : pystr) :
  s <> [] ->
  (forall error_data,
     contains error_marker (strip_fence s) = true ->
     json_loads (strip_fence s) = Some (JObj error_data) ->
     respond (Returns (Output s))
     = HTTPError 404
         (Detail (match obj_get error_data (lit "error") with
                  | Some v => v
                  | None => JStr (lit "Justification not found")
                  end))) /\
  (json_loads (strip_fence s) = None ->
     respond (Returns (Output s))
     = HTTPError 500 (malformed_detail (strip_fence s))) /\
  (forall v,
     contains error_marker (strip_fence s) = false ->
     json_loads (strip_fence s) = Some v ->
     has_location_fields v = false ->
     respond (Returns (Output s))
     = HTTPError 500
         (match v with
          | JObj _ => InternalError ValidationError
          | _ => malformed_detail (strip_fence s)
          end)) /\
  (forall loc,
     respond (Returns (Output s)) = Ok200 loc ->
     contains error_marker (strip_fence s) = false /\
     exists members a b c,
       json_loads (strip_fence s) = Some (JObj members) /\
       obj_get members (lit "doc_id") = Some a /\
       obj_get members (lit "chapter_id") = Some b /\
       obj_get members (lit "paragraph_id") = Some c /\
       validate_int a = Some (doc_id loc) /\
       validate_int b = Some (chapter_id loc) /\
       validate_int c = Some (paragraph_id loc)).
Proof.
  intros Hs. rewrite (respond_output Hs). unfold parse_output, read_payload.
  split; [|split; [|split]].
  - intros error_data Hm Hj. rewrite Hm, Hj. reflexivity.
  - intros Hj. rewrite Hj. destruct (contains _ _); reflexivity.
  - intros v Hm Hj Hv. rewrite Hm, Hj, (validate_location_missing v Hv).
    destruct v; reflexivity.
  - intros loc. destruct (contains error_marker (strip_fence s)) eqn:Hm.
    + destruct (json_loads (strip_fence s)) as [[| | | | | |m]|]; discriminate.
    + destruct (json_loads (strip_fence s)) as [v|] eqn:Hj; [|discriminate].
      destruct (validate_location v) as [[st d|e]|loc'] eqn:Hv.
      * discriminate.
      * destruct e; discriminate.
      * intros [= <-]. split; [reflexivity|].
        apply validate_location_inr in Hv
          as (members & a & b & c & -> & H). eauto 10.
Qed.

End BoundaryProperties.

(** Witness of C8 as amended: the failure example of the prompt gives 404
    with its message, a text that is no JSON gives 500, and the success
    example gives its location, fenced or not. *)
Lemma terminal_payload_outcomes_witness :
  respond (L:=sample_libs) (Returns (Output failure_text))
    = HTTPError 404
        (Detail (JStr (lit
           "Justification paragraph not found after multiple attempts."))) /\
  respond (L:=sample_libs) (Returns (Output (lit "I could not find it.")))
    = HTTPError 500 (malformed_detail (lit "I could not find it.")) /\
  respond (L:=sample_libs) (Returns (Output (fenced location_text)))
    = Ok200 (mkLocation 9 5 434408).
Proof.
  split; [|split].
  - apply (proj1 (terminal_payload_outcomes (L:=sample_libs)
                    (s:=failure_text) ltac:(discriminate)))
      with (error_data := [(lit "error", JStr (lit
              "Justification paragraph not found after multiple attempts."))]);
      vm_compute; reflexivity.
  - apply (proj1 (proj2 (terminal_payload_outcomes (L:=sample_libs)
                    (s:=lit "I could not find it.") ltac:(discriminate)))).
    vm_compute. reflexivity.
  - vm_compute. reflexivity.
Defined.

(** Counterexample to C8 as worded.  The payload parses, has no member
    [error] of its own and lacks two fields of a location, yet the marker
    stands in its text, inside a nested object: the outcome is 404 with the
    default message, not 500. *)
Lemma nested_error_is_not_found :
  json_loads (Libs:=sample_libs) nested_text = Some nested_value /\
  has_location_fields nested_value = false /\
  respond (L:=sample_libs) (Returns (Output nested_text))
    = HTTPError 404 (Detail (JStr (lit "Justification not found"))).
Proof. repeat split; vm_compute; reflexivity. Qed.

(** The agent raising, and a response without output. *)
Example respond_without_output :
  respond (L:=sample_libs) (Returns NoOutput)
    = HTTPError 404 (Detail (JStr (lit
        "Agent failed to produce a result within the iteration limit."))) /\
  respond (L:=sample_libs) (Returns (Output []))
    = HTTPError 500 (Detail (JStr (lit "Agent did not produce an output."))) /\
  respond (L:=sample_libs) (Raises OtherException)
    = HTTPError 500 (InternalError OtherException).
Proof. repeat split. Qed.

(** In binary64 the int 0 a score starts from changes nothing: for the
    first thousand ranks, 0 + 1/(60 + r + 1) is 1/(60 + r + 1), so an id of
    one list scores its single term. *)
Example float_sum_from_zero :
  forallb (fun r => PrimFloat.eqb (sadd szero (recip (K_RRF + Z.of_nat r + 1)))
                                  (recip (K_RRF + Z.of_nat r + 1)))
          (seq 0 1000) = true.
Proof. vm_compute. reflexivity. Qed.

(** * Further properties *)

(** ** Fusion over any lists *)

Section FusionMore.
Context {F : Type} {arith : ScoreArith F} {R : Type}.
Implicit Types (l : list (SearchHit R)) (ls : list (list (SearchHit R))).

Lemma dict_get_fold k_rrf (i : Z) ls :
  forall d : dict F,
    dict_get (fold_left (fun fused results => rrf_scan k_rrf fused 0 results) ls d) i
    = match rrf_all_terms k_rrf i ls with
      | [] => dict_get d i
      | ts => Some (fold_left sadd ts (or_zero (dict_get d i)))
      end.
Proof.
  unfold rrf_all_terms.
  induction ls as [|l ls IH]; intros d; simpl; [reflexivity|].
  rewrite IH, dict_get_scan.
  destruct (rrf_terms k_rrf i 0 l) as [|t ts]; simpl; [reflexivity|].
  rewrite fold_left_app.
  destruct (List.concat (map (rrf_terms k_rrf i 0) ls)); reflexivity.
Qed.

(** X1.  For any number of source lists, with or without repeated ids, the
    fused list has an entry for id [i] exactly when [i] stands somewhere in
    the lists, and its score is then the terms of all its positions added
    from 0 in the order of the scan: an id that a list holds twice gets a
    term for each of the two ranks. *)
Theorem rrf_score_all_occurrences ls k_rrf (i : Z) (s : F) :
  In (mkFused i s) (_reciprocal_rank_fusion ls k_rrf) <->
  rrf_all_terms k_rrf i ls <> [] /\
  s = fold_left sadd (rrf_all_terms k_rrf i ls) szero.
Proof.
  rewrite fused_In_dict. unfold rrf_fused_scores. rewrite dict_get_fold.
  simpl. destruct (rrf_all_terms k_rrf i ls) as [|t ts].
  - split; [discriminate | intros [H _]; tauto].
  - split.
    + intros [= <-]. split; [discriminate | reflexivity].
    + intros [_ ->]. reflexivity.
Qed.

Lemma first_seen_In (ids : list Z) (i : Z) :
  forall seen, In i (first_seen seen ids) <-> In i seen \/ In i ids.
Proof.
  induction ids as [|j ids IH]; intros seen; simpl; [tauto|].
  rewrite IH. destruct (existsb (Z.eqb j) seen) eqn:E.
  - apply existsb_exists in E as (x & Hx & Ex). apply Z.eqb_eq in Ex. subst x.
    split; [tauto|]. intros [H|[<-|H]]; auto.
  - rewrite in_app_iff. simpl. tauto.
Qed.

Lemma fused_ids_In ls k_rrf (i : Z) :
  In i (map (@fused_id F) (_reciprocal_rank_fusion ls k_rrf)) <-> In i (hit_ids ls).
Proof.
  rewrite fused_ids.
  assert (P : Permutation (dict_keys (sorted_desc (rrf_fused_scores (F:=F) k_rrf ls)))
                          (dict_keys (rrf_fused_scores (F:=F) k_rrf ls))).
  { apply Permutation_map, sorted_desc_perm. }
  split.
  - intros H. apply (Permutation_in _ P) in H.
    rewrite dict_keys_fused in H. apply first_seen_In in H as [[]|H]. exact H.
  - intros H. apply (Permutation_in _ (Permutation_sym P)).
    rewrite dict_keys_fused. apply first_seen_In. right. exact H.
Qed.

Lemma fused_nil_iff ls k_rrf :
  _reciprocal_rank_fusion (F:=F) ls k_rrf = [] <-> hit_ids ls = [].
Proof.
  split; intros H.
  - destruct (hit_ids ls) as [|i ids] eqn:E; [reflexivity|].
    assert (Hi : In i (map (@fused_id F) (_reciprocal_rank_fusion ls k_rrf))).
    { apply fused_ids_In. rewrite E. left. reflexivity. }
    rewrite H in Hi. destruct Hi.
  - destruct (_reciprocal_rank_fusion ls k_rrf) as [|h out] eqn:E; [reflexivity|].
    assert (Hi : In (fused_id h) (hit_ids ls)).
    { apply (fused_ids_In ls k_rrf). rewrite E. left. reflexivity. }
    rewrite H in Hi. destruct Hi.
Qed.

(** X2.  The fusion neither adds nor loses an id: the ids of the fused list
    are the ids of the hits, each once, so the fused list is no longer than
    the hits are many and is empty exactly when every source list is. *)
Theorem rrf_ids_are_hit_ids ls k_rrf :
  NoDup (map (@fused_id F) (_reciprocal_rank_fusion ls k_rrf)) /\
  (forall i, In i (map (@fused_id F) (_reciprocal_rank_fusion ls k_rrf))
             <-> In i (hit_ids ls)) /\
  (length (_reciprocal_rank_fusion (F:=F) ls k_rrf) <= length (hit_ids ls))%nat /\
  (_reciprocal_rank_fusion (F:=F) ls k_rrf = [] <-> hit_ids ls = []).
Proof.
  split; [apply fused_ids_NoDup|]. split; [intros i; apply fused_ids_In|].
  split; [|apply fused_nil_iff].
  rewrite <- (length_map (@fused_id F)).
  apply NoDup_incl_length; [apply fused_ids_NoDup|].
  intros i Hi. apply (fused_ids_In ls k_rrf), Hi.
Qed.

Lemma sorted_desc_chain (d : list (Z * F)) : desc_chain d -> sorted_desc d = d.
Proof.
  induction d as [|x d IH]; [reflexivity|]. intros C. simpl.
  destruct d as [|y d]; [reflexivity|].
  destruct C as [Hxy C]. rewrite (IH C). simpl. rewrite Hxy. reflexivity.
Qed.

Lemma rrf_entries_keys k_rrf l : forall rank,
  dict_keys (rrf_entries (F:=F) k_rrf rank l) = map (@hit_id R) l.
Proof.
  unfold dict_keys.
  induction l as [|doc l IH]; intros rank; simpl; [reflexivity|].
  rewrite IH. reflexivity.
Qed.

Lemma dict_set_fresh (d : dict F) (k : Z) (v : F) :
  dict_mem k d = false -> dict_set d k v = d ++ [(k, v)].
Proof.
  unfold dict_mem. induction d as [|[k0 v0] d IH]; simpl; [reflexivity|].
  destruct (k0 =? k); [discriminate|]. intros H. rewrite IH by exact H.
  reflexivity.
Qed.

Lemma dict_set_last (d : dict F) (k : Z) (v w : F) :
  dict_mem k d = false -> dict_set (d ++ [(k, v)]) k w = d ++ [(k, w)].
Proof.
  unfold dict_mem. induction d as [|[k0 v0] d IH]; simpl.
  - rewrite Z.eqb_refl. reflexivity.
  - destruct (k0 =? k); [discriminate|]. intros H. rewrite IH by exact H.
    reflexivity.
Qed.

(** A list of distinct ids none of which the dict holds puts its entries
    behind the dict's. *)
Lemma rrf_scan_fresh k_rrf l :
  forall (d : dict F) rank,
    NoDup (map (@hit_id R) l) ->
    (forall i, In i (map (@hit_id R) l) -> ~ In i (dict_keys d)) ->
    rrf_scan k_rrf d rank l = d ++ rrf_entries k_rrf rank l.
Proof.
  induction l as [|doc l IH]; intros d rank ND Hfresh; simpl.
  - symmetry. apply app_nil_r.
  - inversion ND as [|? ? Hnotin ND']; subst.
    assert (Hm : dict_mem (hit_id doc) d = false).
    { destruct (dict_mem (hit_id doc) d) eqn:E; [|reflexivity].
      apply dict_mem_In in E. exfalso. apply (Hfresh (hit_id doc)); simpl; auto. }
    assert (Hacc : rrf_accumulate k_rrf d rank doc
                   = d ++ [(hit_id doc, sadd szero (recip (k_rrf + Z.of_nat rank + 1)))]).
    { unfold rrf_accumulate.
      rewrite Hm, dict_get_set, Z.eqb_refl, (@dict_set_fresh d (hit_id doc) szero Hm).
      apply dict_set_last, Hm. }
    rewrite Hacc, IH.
    + rewrite <- app_assoc. reflexivity.
    + exact ND'.
    + intros i Hi Hin. unfold dict_keys in Hin. rewrite map_app in Hin.
      apply in_app_or in Hin as [Hin|[<-|[]]].
      * apply (Hfresh i); simpl; auto.
      * apply Hnotin, Hi.
Qed.

Lemma rrf_entries_chain k_rrf l : forall rank,
  (forall r, (rank <= r)%nat -> (S r < rank + length l)%nat ->
     sltb (sadd szero (recip (k_rrf + Z.of_nat r + 1)))
          (sadd szero (recip (k_rrf + Z.of_nat (S r) + 1))) = false) ->
  desc_chain (rrf_entries (F:=F) k_rrf rank l).
Proof.
  induction l as [|doc l IH]; intros rank H; [exact I|].
  destruct l as [|doc' l]; [exact I|].
  split.
  - apply H; simpl; lia.
  - apply IH. intros r Hr1 Hr2. apply H; simpl in *; lia.
Qed.

Lemma single_list_ids k_rrf l :
  NoDup (map (@hit_id R) l) -> terms_descend k_rrf (length l) ->
  map (@fused_id F) (_reciprocal_rank_fusion [l] k_rrf) = map (@hit_id R) l.
Proof.
  intros ND TD. rewrite fused_ids. unfold rrf_fused_scores. simpl.
  rewrite (@rrf_scan_fresh k_rrf l [] 0 ND) by (intros i _ []).
  simpl. rewrite sorted_desc_chain.
  - apply rrf_entries_keys.
  - apply rrf_entries_chain. intros r _ Hr. apply TD. lia.
Qed.

(** X3.  When one source gives no hits (or failed, which counts as none),
    the fused list keeps the order of the other: for a list of distinct ids
    along whose ranks no term scores less than the next, the fused ids are
    the ids of the list in rank order, whichever of the two sources it is. *)
Theorem rrf_single_source_keeps_order k_rrf l :
  NoDup (map (@hit_id R) l) -> terms_descend k_rrf (length l) ->
  map (@fused_id F) (_reciprocal_rank_fusion [l; []] k_rrf) = map (@hit_id R) l /\
  map (@fused_id F) (_reciprocal_rank_fusion [[]; l] k_rrf) = map (@hit_id R) l.
Proof.
  intros ND TD. split.
  - change (_reciprocal_rank_fusion (F:=F) [l; []] k_rrf)
      with (_reciprocal_rank_fusion (F:=F) [l] k_rrf).
    apply single_list_ids; assumption.
  - change (_reciprocal_rank_fusion (F:=F) [[]; l] k_rrf)
      with (_reciprocal_rank_fusion (F:=F) [l] k_rrf).
    apply single_list_ids; assumption.
Qed.

End FusionMore.

(** Witness of X3, on binary64: three keyword hits and a vector source
    without any. *)
Lemma rrf_single_source_keeps_order_witness :
  map (@fused_id float)
    (_reciprocal_rank_fusion [[mkHit 8 tt; mkHit 2 tt; mkHit 5 tt]; []] K_RRF)
  = [8; 2; 5].
Proof.
  apply (@rrf_single_source_keeps_order float _ _ K_RRF
           [mkHit 8 tt; mkHit 2 tt; mkHit 5 tt]).
  - simpl. repeat constructor; simpl; intuition lia.
  - intros r Hr. simpl in Hr.
    destruct r as [|[|r]]; [vm_compute; reflexivity..|lia].
Defined.

(** ** More of retrieve *)

Section RetrieveMore.
Context {F : Type} {arith : ScoreArith F} {U : Unicode}.
Variable self : HybridRetriever F.

Lemma fused_pair_nil (kw vec : list (SearchHit F)) :
  _reciprocal_rank_fusion (F:=F) [kw; vec] K_RRF = [] <-> kw = [] /\ vec = [].
Proof.
  rewrite fused_nil_iff. unfold hit_ids. simpl. rewrite app_nil_r. split.
  - intros H. apply app_eq_nil in H as [Hk Hv].
    apply map_eq_nil in Hk, Hv. auto.
  - intros [-> ->]. reflexivity.
Qed.

Lemma slice_incl {A} (l : list A) (start stop : Z) (x : A) :
  In x (slice l start stop) -> In x l.
Proof.
  destruct (slice_piece l start stop) as (pre & post & E).
  intros H. rewrite E. apply in_or_app. right. apply in_or_app. left. exact H.
Qed.

(** X4.  A fault of the table read is not absorbed: when the searches
    return and the read of [documents] raises, [retrieve] raises the same,
    unless both hit lists are empty, in which case it returns the empty
    list without reading the table. *)
Theorem retrieve_store_fault (q : pystr) (k : Z)
    (kw vec : list (SearchHit F)) (e : exn_class) :
  _search_sqlite self q k = Returns kw ->
  _search_qdrant self q k = Returns vec ->
  documents self = Raises e ->
  retrieve self q k =
  match kw, vec with
  | [], [] => Returns []
  | _, _ => Raises e
  end.
Proof.
  intros Sk Sv D. rewrite (retrieve_of_searches self q k Sk Sv).
  unfold retrieve_from.
  destruct (_reciprocal_rank_fusion [kw; vec] K_RRF) as [|h fused] eqn:Ef.
  - apply fused_pair_nil in Ef as [-> ->]. reflexivity.
  - unfold hydrate. rewrite D. simpl.
    destruct kw, vec; try reflexivity.
    assert (N : _reciprocal_rank_fusion (F:=F) [[]; []] K_RRF = [])
      by (apply fused_pair_nil; auto).
    rewrite N in Ef. discriminate.
Qed.

(** X5.  What [retrieve] raises: an exception of the keyword backend other
    than [sqlite3.Error] goes through, whatever the vector source and the
    table do; and nothing is raised but such an exception or what the read
    of the table raised.  An exception of the vector search is never
    passed on. *)
Theorem retrieve_raises_only (q : pystr) (k : Z) (e : exn_class) :
  (fts_match self (_sanitize_fts_query q) k = Raises e ->
   e <> Sqlite3Error -> retrieve self q k = Raises e) /\
  (retrieve self q k = Raises e ->
   (fts_match self (_sanitize_fts_query q) k = Raises e /\ e <> Sqlite3Error) \/
   documents self = Raises e).
Proof.
  split.
  - intros H Ne. unfold retrieve, _search_sqlite. rewrite H.
    destruct e; try reflexivity. tauto.
  - unfold retrieve, _search_sqlite.
    destruct (fts_match self (_sanitize_fts_query q) k) as [rows|e0] eqn:Ek.
    + simpl. destruct (search_qdrant_returns self q k) as [vec ->]. simpl.
      destruct (_reciprocal_rank_fusion [rows; vec] K_RRF); [discriminate|].
      unfold hydrate. destruct (documents self); simpl; [discriminate|].
      intros [= ->]. right. reflexivity.
    + destruct e0; simpl;
        try (intros [= <-]; left; split; [reflexivity | discriminate]).
      destruct (search_qdrant_returns self q k) as [vec ->]. simpl.
      destruct (_reciprocal_rank_fusion [[]; vec] K_RRF); [discriminate|].
      unfold hydrate. destruct (documents self); simpl; [discriminate|].
      intros [= ->]. right. reflexivity.
Qed.

(** X6.  [retrieve] returns nothing that the sources did not point at:
    each record of a returned list is a row of the table, and its id is the
    id of a hit of the keyword or of the vector list. *)
Theorem retrieve_sound (q : pystr) (k : Z) (docs : list ParagraphRecord)
    (doc : ParagraphRecord) :
  retrieve self q k = Returns docs -> In doc docs ->
  (exists table, documents self = Returns table /\ In doc table) /\
  (exists kw vec,
     _search_sqlite self q k = Returns kw /\
     _search_qdrant self q k = Returns vec /\
     In (rec_id doc) (hit_ids [kw; vec])).
Proof.
  unfold retrieve.
  destruct (_search_sqlite self q k) as [kw|e]; simpl; [|discriminate].
  destruct (_search_qdrant self q k) as [vec|e]; simpl; [|discriminate].
  destruct (_reciprocal_rank_fusion [kw; vec] K_RRF) as [|h fused] eqn:Ef.
  - intros [= <-] [].
  - unfold hydrate. destruct (documents self) as [table|e]; simpl; [|discriminate].
    intros [= <-] Hd. apply in_flat_map in Hd as (i & Hi & Hd).
    destruct (dict_get _ i) as [r|] eqn:G; [|destruct Hd].
    destruct Hd as [->|[]]. apply results_map_key in G as [Hid Hr].
    apply filter_In in Hr as [Hr _]. split; [eauto|].
    exists kw, vec. repeat split. rewrite Hid.
    apply in_map_iff in Hi as (fh & <- & Hfh). apply slice_incl in Hfh.
    apply (fused_ids_In [kw; vec] K_RRF). rewrite Ef. apply in_map, Hfh.
Qed.

(** X7.  With [k] no less than the number of distinct hit ids, nothing is
    cut: for a readable table, [retrieve] returns the rows of all the fused
    ids that have one, in fused order, so every hit of either source that
    has a row is returned. *)
Theorem retrieve_complete (q : pystr) (k : Z) (kw vec : list (SearchHit F))
    (table : list ParagraphRecord) :
  _search_sqlite self q k = Returns kw ->
  _search_qdrant self q k = Returns vec ->
  documents self = Returns table ->
  Z.of_nat (length (_reciprocal_rank_fusion (F:=F) [kw; vec] K_RRF)) <= k ->
  exists docs,
    retrieve self q k = Returns docs /\
    map rec_id docs
      = filter (has_record table)
          (map (@fused_id F) (_reciprocal_rank_fusion [kw; vec] K_RRF)) /\
    (forall i, In i (hit_ids [kw; vec]) -> has_record table i = true ->
               In i (map rec_id docs)).
Proof.
  intros Sk Sv D Hk. rewrite (retrieve_of_searches self q k Sk Sv).
  unfold retrieve_from.
  assert (Hall : forall docs,
            map rec_id docs
            = filter (has_record table)
                (map (@fused_id F) (_reciprocal_rank_fusion [kw; vec] K_RRF)) ->
            forall i, In i (hit_ids [kw; vec]) -> has_record table i = true ->
                      In i (map rec_id docs)).
  { intros docs E i Hi Hr. rewrite E. apply filter_In. split; [|exact Hr].
    apply fused_ids_In, Hi. }
  destruct (hydrate_returns self (_reciprocal_rank_fusion [kw; vec] K_RRF) k D)
    as (docs & Hh & Hids & _).
  rewrite slice_prefix, firstn_all2 in Hids by lia.
  destruct (_reciprocal_rank_fusion [kw; vec] K_RRF) as [|h fused] eqn:Ef.
  - exists []. split; [reflexivity|]. split; [reflexivity|]. apply Hall. reflexivity.
  - exists docs. split; [exact Hh|]. split; [exact Hids|]. apply Hall, Hids.
Qed.

Lemma hydrate_length (fused : list (FusedHit F)) (k : Z)
    (docs : list ParagraphRecord) :
  0 <= k -> hydrate self fused k = Returns docs -> Z.of_nat (length docs) <= k.
Proof.
  intros Hk H. unfold hydrate in H.
  destruct (documents self) as [table|e] eqn:D; simpl in H; [|discriminate].
  destruct (hydrate_returns self fused k D) as (docs' & Hh & Hids & _).
  unfold hydrate in Hh. rewrite D in Hh. simpl in Hh. rewrite H in Hh.
  injection Hh as <-. rewrite slice_prefix in Hids by exact Hk.
  rewrite <- (length_map rec_id), Hids.
  pose proof (filter_length_le (has_record table)
                (map (@fused_id F) (firstn (Z.to_nat k) fused))) as L1.
  rewrite length_map in L1.
  pose proof (firstn_le_length (Z.to_nat k) fused) as L2. lia.
Qed.

Lemma join_cons_prefix (sep x : pystr) (rest : list pystr) :
  exists tail, join sep (x :: rest) = x ++ tail.
Proof.
  destruct rest as [|y rest]; simpl.
  - exists []. symmetry. apply app_nil_r.
  - eexists. reflexivity.
Qed.

(** X8.  The answer of the tool tells the two cases apart: it is the text
    [No relevant documents found for this query.] exactly when [retrieve]
    returns the empty list; for a non-empty list it starts with the header
    of the first block; it is never the empty string; and what [retrieve]
    raises the tool raises. *)
Theorem hybrid_search_answers (q : pystr) :
  (forall e, retrieve self q TOP_K = Raises e <-> hybrid_search self q = Raises e) /\
  (forall doc docs, retrieve self q TOP_K = Returns (doc :: docs) ->
     exists tail,
       hybrid_search self q = Returns (lit "Source (doc_id: " ++ tail)) /\
  (forall out, hybrid_search self q = Returns out ->
     out <> [] /\
     (out = no_documents_message <-> retrieve self q TOP_K = Returns [])).
Proof.
  unfold hybrid_search.
  destruct (retrieve self q TOP_K) as [[|doc docs]|e]; unfold bind; cbv beta iota.
  - split; [split; discriminate|]. split; [discriminate|].
    intros out [= <-]. split; [discriminate | tauto].
  - split; [split; discriminate|].
    destruct (join_cons_prefix block_separator (format_document doc)
                (map format_document docs)) as [tail E].
    change (map format_document (doc :: docs))
      with (format_document doc :: map format_document docs).
    rewrite E. split.
    + intros doc0 docs0 _. unfold format_document.
      rewrite <- app_assoc. eauto.
    + intros out [= <-]. split; [discriminate|].
      split; discriminate.
  - split; [intros e0; split; intros [= ->]; reflexivity|]. split; discriminate.
Qed.

(** X9.  The tool shows at most five documents: with a keyword backend
    that raises nothing but [sqlite3.Error] and a readable table, its
    answer is made of the blocks of the list that [retrieve] returns for
    [k = 5], one block a record in the order of the list, which has no more
    than five records. *)
Theorem hybrid_search_top_five (q : pystr) (table : list ParagraphRecord) :
  sqlite_faults_only (fts_match self (_sanitize_fts_query q) TOP_K) ->
  documents self = Returns table ->
  exists docs,
    retrieve self q TOP_K = Returns docs /\
    (length docs <= 5)%nat /\
    hybrid_search self q
    = Returns (match docs with
               | [] => no_documents_message
               | _ :: _ => join block_separator (map format_document docs)
               end).
Proof.
  intros Hf D.
  assert (Sk : exists kw, _search_sqlite self q TOP_K = Returns kw).
  { unfold _search_sqlite.
    destruct (fts_match self (_sanitize_fts_query q) TOP_K) as [rows|e] eqn:E;
      [eauto|].
    rewrite (Hf e eq_refl). eauto. }
  destruct Sk as [kw Sk].
  destruct (search_qdrant_returns self q TOP_K) as [vec Sv].
  assert (R : exists docs, retrieve self q TOP_K = Returns docs /\
                           Z.of_nat (length docs) <= TOP_K).
  { rewrite (retrieve_of_searches self q TOP_K Sk Sv). unfold retrieve_from.
    destruct (_reciprocal_rank_fusion [kw; vec] K_RRF) as [|h fused].
    - exists []. split; [reflexivity | unfold TOP_K; simpl; lia].
    - destruct (hydrate_returns self (h :: fused) TOP_K D) as (docs & Hh & _).
      exists docs. split; [exact Hh|].
      apply (hydrate_length (h :: fused)); [unfold TOP_K; lia | exact Hh]. }
  destruct R as (docs & Hr & Hlen). exists docs.
  split; [exact Hr|]. split; [unfold TOP_K in Hlen; lia|].
  unfold hybrid_search. rewrite Hr. simpl. destruct docs; reflexivity.
Qed.

End RetrieveMore.

(** Witness of X4, on binary64: the vector source returns id 7 and the
    read of the table raises. *)
Lemma retrieve_store_fault_witness :
  retrieve (U:=latin_cyrillic)
    (retriever_of (F:=float) (Raises Sqlite3Error)
       (Returns [mkHit 7 0.5%float]) (Raises Sqlite3Error))
    (lit "group III") TOP_K
  = Raises Sqlite3Error.
Proof.
  apply (retrieve_store_fault (U:=latin_cyrillic)
           (retriever_of (F:=float) (Raises Sqlite3Error)
              (Returns [mkHit 7 0.5%float]) (Raises Sqlite3Error))
           (lit "group III") TOP_K (kw:=[]) (vec:=[mkHit 7 0.5%float]));
    reflexivity.
Defined.

(** Witness of X5, on binary64: the keyword backend raises outside
    [sqlite3.Error] while the vector source and the table are sound. *)
Lemma retrieve_raises_only_witness :
  retrieve (U:=latin_cyrillic)
    (retriever_of (F:=float) (Raises OtherException)
       (Returns [mkHit 7 0.5%float]) (Returns [record_7]))
    (lit "group III") TOP_K
  = Raises OtherException.
Proof.
  apply (proj1 (retrieve_raises_only (U:=latin_cyrillic)
           (retriever_of (F:=float) (Raises OtherException)
              (Returns [mkHit 7 0.5%float]) (Returns [record_7]))
           (lit "group III") TOP_K OtherException)).
  - reflexivity.
  - discriminate.
Defined.

(** Witness of X6, on binary64: record 7 comes back and id 7 is a hit of
    the vector list. *)
Lemma retrieve_sound_witness :
  (exists table,
     documents (retriever_of (F:=float) (Returns [mkHit 4 (-1)%float])
                  (Returns [mkHit 7 0.5%float]) (Returns [record_1; record_7]))
       = Returns table /\ In record_7 table) /\
  (exists kw vec,
     _search_sqlite (U:=latin_cyrillic)
       (retriever_of (F:=float) (Returns [mkHit 4 (-1)%float])
          (Returns [mkHit 7 0.5%float]) (Returns [record_1; record_7]))
       (lit "group III") TOP_K = Returns kw /\
     _search_qdrant
       (retriever_of (F:=float) (Returns [mkHit 4 (-1)%float])
          (Returns [mkHit 7 0.5%float]) (Returns [record_1; record_7]))
       (lit "group III") TOP_K = Returns vec /\
     In (rec_id record_7) (hit_ids [kw; vec])).
Proof.
  apply (retrieve_sound (U:=latin_cyrillic)
           (retriever_of (F:=float) (Returns [mkHit 4 (-1)%float])
              (Returns [mkHit 7 0.5%float]) (Returns [record_1; record_7]))
           (lit "group III") TOP_K (docs:=[record_7])).
  - vm_compute. reflexivity.
  - left. reflexivity.
Defined.

(** Witness of X7, on binary64: three distinct ids and [k = 5]; ids 7 and
    1 have rows and both come back, id 4 has none. *)
Lemma retrieve_complete_witness :
  exists docs,
    retrieve (U:=latin_cyrillic)
      (retriever_of (F:=float) (Returns [mkHit 4 (-2)%float; mkHit 7 (-1)%float])
         (Returns [mkHit 1 0.5%float; mkHit 7 0.25%float])
         (Returns [record_1; record_7]))
      (lit "group III") TOP_K = Returns docs /\
    map rec_id docs
      = filter (has_record [record_1; record_7])
          (map (@fused_id float)
             (_reciprocal_rank_fusion
                [[mkHit 4 (-2)%float; mkHit 7 (-1)%float];
                 [mkHit 1 0.5%float; mkHit 7 0.25%float]] K_RRF)) /\
    (forall i,
       In i (hit_ids [[mkHit 4 (-2)%float; mkHit 7 (-1)%float];
                      [mkHit 1 0.5%float; mkHit 7 0.25%float]]) ->
       has_record [record_1; record_7] i = true ->
       In i (map rec_id docs)).
Proof.
  apply (@retrieve_complete float _ latin_cyrillic
           (retriever_of (F:=float)
              (Returns [mkHit 4 (-2)%float; mkHit 7 (-1)%float])
              (Returns [mkHit 1 0.5%float; mkHit 7 0.25%float])
              (Returns [record_1; record_7]))
           (lit "group III") TOP_K).
  - reflexivity.
  - reflexivity.
  - reflexivity.
  - vm_compute. discriminate.
Defined.

(** Witness of X8, on binary64: the answer for record 7 starts with the
    header of its block. *)
Lemma hybrid_search_answers_witness :
  exists tail,
    hybrid_search (U:=latin_cyrillic)
      (retriever_of (F:=float) (Raises Sqlite3Error)
         (Returns [mkHit 7 0.5%float]) (Returns [record_1; record_7]))
      (lit "group III")
    = Returns (lit "Source (doc_id: " ++ tail).
Proof.
  apply (proj1 (proj2 (hybrid_search_answers (U:=latin_cyrillic)
           (retriever_of (F:=float) (Raises Sqlite3Error)
              (Returns [mkHit 7 0.5%float]) (Returns [record_1; record_7]))
           (lit "group III")))) with (doc := record_7) (docs := []).
  vm_compute. reflexivity.
Defined.

(** Witness of X9, on binary64: two records, two blocks. *)
Lemma hybrid_search_top_five_witness :
  exists docs,
    retrieve (U:=latin_cyrillic)
      (retriever_of (F:=float)
         (Returns [mkHit 1 (-3)%float; mkHit 7 (-2)%float])
         (Returns [mkHit 7 0.5%float]) (Returns [record_1; record_7]))
      (lit "group III") TOP_K = Returns docs /\
    (length docs <= 5)%nat /\
    hybrid_search (U:=latin_cyrillic)
      (retriever_of (F:=float)
         (Returns [mkHit 1 (-3)%float; mkHit 7 (-2)%float])
         (Returns [mkHit 7 0.5%float]) (Returns [record_1; record_7]))
      (lit "group III")
    = Returns (match docs with
               | [] => no_documents_message
               | _ :: _ => join block_separator (map format_document docs)
               end).
Proof.
  apply (hybrid_search_top_five (U:=latin_cyrillic)
           (retriever_of (F:=float)
              (Returns [mkHit 1 (-3)%float; mkHit 7 (-2)%float])
              (Returns [mkHit 7 0.5%float]) (Returns [record_1; record_7]))
           (lit "group III") (table := [record_1; record_7])).
  - intros e H. simpl in H. discriminate.
  - reflexivity.
Defined.

(** The answer of the tool for record 7, character by character. *)
Example hybrid_search_record_7 :
  hybrid_search (U:=latin_cyrillic)
    (retriever_of (F:=float) (Raises Sqlite3Error)
       (Returns [mkHit 7 0.5%float]) (Returns [record_1; record_7]))
    (lit "group III")
  = Returns (lit "Source (doc_id: 3, chapter_id: 2, paragraph_id: 70):"
               ++ [10%N]
               ++ lit "Content: the order is logged by the operator on duty"
               ++ [10%N]).
Proof. vm_compute. reflexivity. Qed.

(** ** More of the sanitizer *)

Section SanitizeMore.
Context {U : Unicode}.

(** X10.  The sanitizer changes a query exactly when the query holds a
    character that is neither a word character nor white space, and
    sanitizing twice is sanitizing once. *)
Theorem sanitize_fixpoint (q : pystr) :
  (_sanitize_fts_query q = q <-> Forall (fun c => sanitized_char c = true) q) /\
  _sanitize_fts_query (_sanitize_fts_query q) = _sanitize_fts_query q.
Proof.
  assert (Fix : forall q', Forall (fun c => sanitized_char c = true) q' ->
                           _sanitize_fts_query q' = q').
  { unfold _sanitize_fts_query, sanitized_char.
    induction 1 as [|c q' Hc _ IH]; simpl; [reflexivity|].
    rewrite Hc, IH. reflexivity. }
  split; [split; [|apply Fix]|].
  - unfold _sanitize_fts_query, sanitized_char.
    induction q as [|c q IH]; simpl; intros E; constructor.
    + injection E as Ec _.
      destruct (re_word c || isspace c) eqn:Hc; [reflexivity|].
      subst c. rewrite orb_false_iff in Hc. destruct Hc as [_ Hc]. discriminate.
    + injection E as _ Eq. apply IH, Eq.
  - apply Fix, sanitize_clean.
Qed.

End SanitizeMore.

(** ** More of the boundary *)

Section StripFacts.

Lemma lstrip_head (s : pystr) :
  match lstrip s with [] => True | c :: _ => isspace c = false end.
Proof.
  induction s as [|c s IH]; simpl; [exact I|].
  destruct (isspace c) eqn:E; [exact IH | exact E].
Qed.

Lemma lstrip_fix (s : pystr) :
  match s with [] => True | c :: _ => isspace c = false end -> lstrip s = s.
Proof. destruct s as [|c s]; simpl; [reflexivity | intros ->; reflexivity]. Qed.

Lemma lstrip_lstrip (s : pystr) : lstrip (lstrip s) = lstrip s.
Proof. apply lstrip_fix, lstrip_head. Qed.

Lemma lstrip_suffix (s : pystr) : exists ws, s = ws ++ lstrip s.
Proof.
  induction s as [|c s [ws IH]]; simpl; [exists []; reflexivity|].
  destruct (isspace c).
  - exists (c :: ws). simpl. rewrite <- IH. reflexivity.
  - exists []. reflexivity.
Qed.

Lemma rstrip_prefix (s : pystr) : exists ws, s = rstrip s ++ ws.
Proof.
  unfold rstrip. destruct (lstrip_suffix (rev s)) as [ws E].
  exists (rev ws). rewrite <- rev_app_distr, <- E. symmetry. apply rev_involutive.
Qed.

Lemma rstrip_rstrip (s : pystr) : rstrip (rstrip s) = rstrip s.
Proof. unfold rstrip. rewrite rev_involutive, lstrip_lstrip. reflexivity. Qed.

(** [strip] leaves nothing for a second [strip]. *)
Lemma strip_strip (s : pystr) : strip (strip s) = strip s.
Proof.
  unfold strip at 1.
  assert (L : lstrip (strip s) = strip s).
  { apply lstrip_fix. unfold strip.
    destruct (rstrip_prefix (lstrip s)) as [ws E].
    destruct (rstrip (lstrip s)) as [|c t]; [exact I|].
    pose proof (lstrip_head s) as H. rewrite E in H. exact H. }
  rewrite L. unfold strip. apply rstrip_rstrip.
Qed.

End StripFacts.

Section BoundaryMore.
Context {L : Libs}.

Lemma strip_fence_fenced (p : pystr) : strip_fence (fenced p) = strip p.
Proof.
  unfold strip_fence. rewrite strip_fenced, slice_fenced.
  change (startswith (fenced p) (lit "```json")) with true. cbv iota.
  unfold strip. simpl. reflexivity.
Qed.

(** X11.  The endpoint answers with 200, 404 or 500 and no other status,
    whatever the agent returns or raises. *)
Theorem respond_status_codes (response : outcome agent_response) :
  match respond response with
  | Ok200 _ => True
  | HTTPError status_code _ => status_code = 404 \/ status_code = 500
  end.
Proof.
  destruct response as [[|[|c s]]|e]; try (simpl; auto; fail).
  rewrite respond_output by discriminate.
  unfold parse_output, read_payload, validate_location.
  destruct (contains error_marker (strip_fence (c :: s)));
    (destruct (json_loads (strip_fence (c :: s))) as [[| | | | | |m]|];
     [auto..| |auto]); auto.
  destruct (obj_get m (lit "doc_id")) as [a|]; auto.
  destruct (obj_get m (lit "chapter_id")) as [b|]; auto.
  destruct (obj_get m (lit "paragraph_id")) as [c0|]; auto.
  destruct (validate_int a), (validate_int b), (validate_int c0); auto.
Qed.

(** X12.  A not-found answer has two sources only: a response without
    output, answered with the text on the iteration limit, or an output
    whose text, fences removed, holds the marker and parses to an object,
    answered with the member [error] of the object or the default text. *)
Theorem not_found_only_when (response : outcome agent_response) (d : detail) :
  respond response = HTTPError 404 d ->
  (response = Returns NoOutput /\
   d = Detail (JStr (lit
         "Agent failed to produce a result within the iteration limit."))) \/
  (exists s error_data,
     response = Returns (Output s) /\ s <> [] /\
     contains error_marker (strip_fence s) = true /\
     json_loads (strip_fence s) = Some (JObj error_data) /\
     d = Detail (match obj_get error_data (lit "error") with
                 | Some v => v
                 | None => JStr (lit "Justification not found")
                 end)).
Proof.
  destruct response as [[|[|c s]]|e].
  - simpl. intros [= <-]. left. auto.
  - simpl. discriminate.
  - rewrite respond_output by discriminate. unfold parse_output, read_payload.
    destruct (contains error_marker (strip_fence (c :: s))) eqn:Hm.
    + destruct (json_loads (strip_fence (c :: s))) as [[| | | | | |m]|] eqn:Hj;
        try discriminate.
      intros [= <-]. right. exists (c :: s), m.
      repeat split; auto. discriminate.
    + unfold validate_location.
      destruct (json_loads (strip_fence (c :: s))) as [[| | | | | |m]|];
        try discriminate.
      destruct (obj_get m (lit "doc_id")) as [a|]; try discriminate.
      destruct (obj_get m (lit "chapter_id")) as [b|]; try discriminate.
      destruct (obj_get m (lit "paragraph_id")) as [c0|]; try discriminate.
      destruct (validate_int a), (validate_int b), (validate_int c0);
        discriminate.
  - simpl. discriminate.
Qed.

(** X13.  White space around a fenced payload does not count: for a payload
    that is not white space alone and does not itself start with the
    opening fence, the fenced output is answered exactly as the payload
    stripped of its surrounding white space, status and detail alike. *)
Theorem respond_fenced (p : pystr) :
  strip p <> [] ->
  startswith (strip p) (lit "```json") = false ->
  respond (Returns (Output (fenced p))) = respond (Returns (Output (strip p))).
Proof.
  intros Hne Hs.
  assert (Hf : fenced p <> []) by discriminate.
  rewrite (respond_output Hf), (respond_output Hne). unfold parse_output.
  rewrite strip_fence_fenced.
  assert (E : strip_fence (strip p) = strip p).
  { unfold strip_fence. rewrite strip_strip, Hs. reflexivity. }
  rewrite E. reflexivity.
Qed.

End BoundaryMore.

(** Witness of X12: the failure example of the prompt. *)
Lemma not_found_only_when_witness :
  (Returns (Output failure_text) = Returns NoOutput /\
   Detail (JStr (lit
     "Justification paragraph not found after multiple attempts."))
   = Detail (JStr (lit
       "Agent failed to produce a result within the iteration limit."))) \/
  (exists s error_data,
     Returns (Output failure_text) = Returns (Output s) /\ s <> [] /\
     contains error_marker (strip_fence s) = true /\
     json_loads (Libs:=sample_libs) (strip_fence s) = Some (JObj error_data) /\
     Detail (JStr (lit
       "Justification paragraph not found after multiple attempts."))
     = Detail (match obj_get error_data (lit "error") with
               | Some v => v
               | None => JStr (lit "Justification not found")
               end)).
Proof.
  apply (not_found_only_when (L:=sample_libs)). vm_compute. reflexivity.
Defined.

(** Witness of X13: the success example of the prompt with a line break
    behind it, fenced. *)
Lemma respond_fenced_witness :
  respond (L:=sample_libs) (Returns (Output (fenced (location_text ++ [10%N]))))
  = Ok200 (mkLocation 9 5 434408).
Proof.
  rewrite (@respond_fenced sample_libs (location_text ++ [10%N])).
  - vm_compute. reflexivity.
  - vm_compute. discriminate.
  - vm_compute. reflexivity.
Defined.

(** ** clean_html *)

Section TagFacts.

Lemma closes_remove (s : pystr) :
  closes s = false -> closes (remove_tags_from false s) = false.
Proof.
  induction s as [|c s IH]; simpl; [reflexivity|].
  destruct (c =? 62)%N eqn:E62; [discriminate|].
  destruct (c =? 10)%N eqn:E10.
  - intros _. apply N.eqb_eq in E10. subst c. simpl. reflexivity.
  - intros H. rewrite H, andb_false_r. simpl. rewrite E62, E10. apply IH, H.
Qed.

Lemma has_tag_remove (s : pystr) :
  has_tag (remove_tags_from false s) = false /\
  has_tag (remove_tags_from true s) = false.
Proof.
  induction s as [|c s [IHf IHt]]; simpl; [auto|]. split.
  - destruct ((c =? 60)%N && closes s) eqn:E; [exact IHt|].
    simpl. rewrite IHf, orb_false_r.
    apply andb_false_iff in E as [E|E]; [rewrite E; reflexivity|].
    rewrite (closes_remove s E). apply andb_false_r.
  - destruct (c =? 62)%N; assumption.
Qed.

Lemma remove_tags_without (s : pystr) :
  has_tag s = false -> remove_tags_from false s = s.
Proof.
  induction s as [|c s IH]; simpl; [reflexivity|].
  intros H. apply orb_false_iff in H as [H1 H2].
  rewrite H1, IH by exact H2. reflexivity.
Qed.

Lemma remove_tags_length (s : pystr) : forall in_tag,
  (length (remove_tags_from in_tag s) <= length s)%nat.
Proof.
  induction s as [|c s IH]; intros in_tag; simpl; [lia|].
  pose proof (IH true). pose proof (IH false).
  destruct in_tag.
  - destruct (c =? 62)%N; lia.
  - destruct ((c =? 60)%N && closes s); simpl; lia.
Qed.

(** X14.  The removal of tags leaves no tag behind: in its result no [<]
    is followed by a [>] on the same line.  So it changes nothing in a text
    without tags, a second removal changes nothing, and the result is no
    longer than the text. *)
Theorem remove_tags_leaves_no_tag (s : pystr) :
  has_tag (remove_tags s) = false /\
  (has_tag s = false -> remove_tags s = s) /\
  remove_tags (remove_tags s) = remove_tags s /\
  (length (remove_tags s) <= length s)%nat.
Proof.
  unfold remove_tags. pose proof (has_tag_remove s) as [H _].
  split; [exact H|]. split; [apply remove_tags_without|].
  split; [apply remove_tags_without, H | apply remove_tags_length].
Qed.

End TagFacts.

Section SpaceFacts.

Lemma split_from_words (s : pystr) : forall word,
  Forall (fun c => isspace c = false) word ->
  Forall wordlike (split_from word s).
Proof.
  induction s as [|c s IH]; intros word Hw; simpl.
  - destruct word; constructor; [|constructor]. split; [discriminate|exact Hw].
  - destruct (isspace c) eqn:E.
    + destruct word as [|a word]; [apply IH; constructor|].
      constructor; [split; [discriminate|exact Hw] | apply IH; constructor].
    + apply IH. apply Forall_app. split; [exact Hw|]. repeat constructor. exact E.
Qed.

Lemma not_space_32 (c : char) : isspace c = false -> (c =? 32)%N = false.
Proof.
  intros H. destruct (c =? 32)%N eqn:E; [|reflexivity].
  apply N.eqb_eq in E. subst c. discriminate.
Qed.

Lemma single_spaced_word (w rest : pystr) : forall at_start,
  wordlike w ->
  single_spaced_from at_start (w ++ rest) = single_spaced_from false rest.
Proof.
  induction w as [|c w IH]; intros at_start [Hne Hw]; [tauto|].
  inversion Hw as [|? ? Hc Hw']; subst. simpl.
  rewrite (not_space_32 c Hc), Hc. simpl.
  destruct w as [|c' w]; [reflexivity|].
  apply IH. split; [discriminate|exact Hw'].
Qed.

Lemma single_spaced_join (ws : list pystr) :
  ws <> [] -> Forall wordlike ws ->
  single_spaced_from true (join [32%N] ws) = true.
Proof.
  induction ws as [|w ws IH]; [tauto|]. intros _ H.
  inversion H as [|? ? Hw Hws]; subst.
  destruct ws as [|w' ws].
  - simpl. rewrite <- (app_nil_r w), (single_spaced_word [] true Hw). reflexivity.
  - change (join [32%N] (w :: w' :: ws))
      with (w ++ [32%N] ++ join [32%N] (w' :: ws)).
    rewrite (single_spaced_word _ true Hw). simpl.
    apply IH; [discriminate | exact Hws].
Qed.

Lemma split_from_word (w rest : pystr) : forall word,
  Forall (fun c => isspace c = false) w ->
  split_from word (w ++ rest) = split_from (word ++ w) rest.
Proof.
  induction w as [|c w IH]; intros word Hw; simpl.
  - rewrite app_nil_r. reflexivity.
  - inversion Hw as [|? ? Hc Hw']; subst. rewrite Hc, IH by exact Hw'.
    rewrite <- app_assoc. reflexivity.
Qed.

Lemma split_join (ws : list pystr) :
  Forall wordlike ws -> split (join [32%N] ws) = ws.
Proof.
  unfold split. induction 1 as [|w ws [Hne Hw] Hws IH]; [reflexivity|].
  destruct ws as [|w' ws].
  - simpl. replace (split_from [] w) with (split_from ([] ++ w) []).
    + simpl. destruct w; [tauto | reflexivity].
    + rewrite <- (split_from_word [] [] Hw), app_nil_r. reflexivity.
  - change (join [32%N] (w :: w' :: ws))
      with (w ++ [32%N] ++ join [32%N] (w' :: ws)).
    rewrite (split_from_word _ [] Hw). destruct w as [|a w]; [tauto|].
    change (split_from ([] ++ a :: w) ([32%N] ++ join [32%N] (w' :: ws)))
      with ((a :: w) :: split_from [] (join [32%N] (w' :: ws))).
    rewrite IH. reflexivity.
Qed.

Lemma join_length (s : pystr) : forall word,
  (length (join [32%N] (split_from word s)) <= length word + length s)%nat.
Proof.
  induction s as [|c s IH]; intros word; simpl.
  - destruct word; simpl; [lia|]. lia.
  - destruct (isspace c).
    + destruct word as [|a word].
      * specialize (IH []). simpl in *. lia.
      * specialize (IH []).
        destruct (split_from [] s) as [|w ws] eqn:E.
        -- simpl. lia.
        -- change (join [32%N] ((a :: word) :: w :: ws))
             with ((a :: word) ++ [32%N] ++ join [32%N] (w :: ws)).
           remember (join [32%N] (w :: ws)) as rest in *.
           rewrite !length_app. simpl in *. unfold pystr, char in *. lia.
    + specialize (IH (word ++ [c])). rewrite length_app in IH. simpl in IH. lia.
Qed.

Lemma clean_html_spaced (raw_html : pystr) :
  single_spaced (clean_html raw_html) = true.
Proof.
  unfold clean_html.
  assert (W : Forall wordlike (split (remove_tags raw_html)))
    by (apply split_from_words; constructor).
  destruct (split (remove_tags raw_html)) as [|w ws] eqn:E; [reflexivity|].
  assert (S : single_spaced_from true (join [32%N] (w :: ws)) = true)
    by (apply single_spaced_join; [discriminate | exact W]).
  unfold single_spaced. destruct (join [32%N] (w :: ws)); [reflexivity|exact S].
Qed.

(** X15.  The cleaned text is the words of the tag-free text with one space
    between any two: it has no white space at either end, none but the
    space and no two spaces in a row; split again it gives the same words;
    and it is no longer than the raw text. *)
Theorem clean_html_single_spaced (raw_html : pystr) :
  single_spaced (clean_html raw_html) = true /\
  split (clean_html raw_html) = split (remove_tags raw_html) /\
  (length (clean_html raw_html) <= length raw_html)%nat.
Proof.
  split; [apply clean_html_spaced|]. unfold clean_html. split.
  - apply split_join, split_from_words. constructor.
  - pose proof (join_length (remove_tags raw_html) []) as L1.
    pose proof (remove_tags_length raw_html false) as L2.
    unfold split, remove_tags in *. simpl in L1. lia.
Qed.

End SpaceFacts.

(** The cleaning at work: tags go, an unclosed [<] stays, runs of white
    space become one space. *)
Example clean_html_sample :
  clean_html (lit "  <p>An <b>order</b>" ++ [10%N; 9%N] ++ lit "is logged</p> if a < b ")
  = lit "An order is logged if a < b".
Proof. vm_compute. reflexivity. Qed.

(** ** The indexing loop *)

Section IndexingFacts.
Context {M V : Type}.
Variable next_rowid : list Z -> Z.
Implicit Types (db : Database M) (points : list (PointStruct M V))
  (documents : list (PreparedDoc M * V)).

(** What one run of the loop adds to the three stores. *)
Lemma index_documents_adds documents : forall db points,
  exists ids,
    let out := index_documents next_rowid db points documents in
    map (@row_id M) (db_documents (fst out))
      = map (@row_id M) (db_documents db) ++ ids /\
    map fts_rowid (db_fts (fst out)) = map fts_rowid (db_fts db) ++ ids /\
    map (@point_id M V) (snd out) = map (@point_id M V) points ++ ids /\
    map (@row_text M) (db_documents (fst out))
      = map (@row_text M) (db_documents db)
          ++ map (fun d => doc_text (fst d)) documents /\
    map fts_text (db_fts (fst out))
      = map fts_text (db_fts db) ++ map (fun d => doc_text (fst d)) documents /\
    map (@row_metadata M) (db_documents (fst out))
      = map (@row_metadata M) (db_documents db)
          ++ map (fun d => doc_metadata (fst d)) documents /\
    map (@point_payload M V) (snd out)
      = map (@point_payload M V) points
          ++ map (fun d => doc_metadata (fst d)) documents /\
    map (@point_vector M V) (snd out)
      = map (@point_vector M V) points ++ map snd documents /\
    ((forall keys, ~ In (next_rowid keys) keys) ->
     NoDup (map (@row_id M) (db_documents db)) ->
     NoDup (map (@row_id M) (db_documents db) ++ ids)).
Proof.
  induction documents as [|[doc embedding] documents IH]; intros db points.
  - exists []. simpl. rewrite !app_nil_r. repeat split. auto.
  - simpl.
    destruct (IH (mkDb (db_documents db
                          ++ [mkRow (next_rowid (map (@row_id M) (db_documents db)))
                                    (doc_text doc) (doc_metadata doc)])
                       (db_fts db
                          ++ [mkFts (next_rowid (map (@row_id M) (db_documents db)))
                                    (doc_text doc)]))
                 (points ++ [mkPoint (next_rowid (map (@row_id M) (db_documents db)))
                                     embedding (doc_metadata doc)]))
      as (ids & H1 & H2 & H3 & H4 & H5 & H6 & H7 & H8 & H9).
    exists (next_rowid (map (@row_id M) (db_documents db)) :: ids).
    simpl in *. rewrite !map_app in *. simpl in *. rewrite <- !app_assoc in *.
    simpl in *. repeat split; try assumption.
    intros Hfresh ND. apply H9; [exact Hfresh|].
    apply NoDup_app; [exact ND | repeat constructor; simpl; tauto |].
    intros x Hx [<-|[]]. exact (Hfresh _ Hx).
Qed.

(** X16.  The loop keeps one key for the three stores: after it has run on
    a fresh database, the rows of [documents], the rows of [documents_fts]
    and the points for Qdrant carry the same keys in the same order, the
    order of the documents, with the text, the metadata and the embedding
    of each document; and the keys are distinct if the database never
    hands out a key in use. *)
Theorem index_documents_shares_keys documents :
  let out := index_documents next_rowid setup_sqlite [] documents in
  map (@row_id M) (db_documents (fst out)) = map (@point_id M V) (snd out) /\
  map fts_rowid (db_fts (fst out)) = map (@point_id M V) (snd out) /\
  map (@row_text M) (db_documents (fst out))
    = map (fun d => doc_text (fst d)) documents /\
  map fts_text (db_fts (fst out)) = map (fun d => doc_text (fst d)) documents /\
  map (@row_metadata M) (db_documents (fst out))
    = map (fun d => doc_metadata (fst d)) documents /\
  map (@point_payload M V) (snd out)
    = map (fun d => doc_metadata (fst d)) documents /\
  map (@point_vector M V) (snd out) = map snd documents /\
  ((forall keys, ~ In (next_rowid keys) keys) ->
   NoDup (map (@point_id M V) (snd out))).
Proof.
  destruct (index_documents_adds documents setup_sqlite [])
    as (ids & H1 & H2 & H3 & H4 & H5 & H6 & H7 & H8 & H9).
  simpl in *. rewrite H1, H2, H3.
  repeat split; try assumption.
  intros Hfresh. apply H9; [exact Hfresh | constructor].
Qed.

End IndexingFacts.

Section SqliteKeys.
Context {M V : Type}.

Lemma max_of_run (j : nat) : forall (a : Z) (first : nat),
  (0 < j)%nat ->
  fold_right Z.max a (map Z.of_nat (seq first j))
  = Z.max a (Z.of_nat (first + j - 1)).
Proof.
  induction j as [|j IH]; intros a first Hj; [lia|].
  simpl. destruct j as [|j].
  - simpl. replace (first + 1 - 1)%nat with first by lia. lia.
  - rewrite (IH a (S first)) by lia.
    replace (S first + S j - 1)%nat with (first + S (S j) - 1)%nat by lia. lia.
Qed.

Lemma sqlite_next_rowid_run (n : nat) :
  sqlite_next_rowid (map Z.of_nat (seq 1 n)) = Z.of_nat (S n).
Proof.
  destruct n as [|n]; [reflexivity|].
  unfold sqlite_next_rowid. simpl.
  destruct n as [|n]; [reflexivity|].
  rewrite (max_of_run 1 2) by lia. lia.
Qed.

Lemma index_documents_run (documents : list (PreparedDoc M * V)) :
  forall (db : Database M) (points : list (PointStruct M V)) (n : nat),
    map (@row_id M) (db_documents db) = map Z.of_nat (seq 1 n) ->
    map (@point_id M V) points = map Z.of_nat (seq 1 n) ->
    map (@point_id M V)
      (snd (index_documents sqlite_next_rowid db points documents))
    = map Z.of_nat (seq 1 (n + length documents)).
Proof.
  induction documents as [|[doc embedding] documents IH]; intros db points n Hr Hp.
  - simpl. rewrite Nat.add_0_r. exact Hp.
  - simpl. rewrite Hr, sqlite_next_rowid_run.
    replace (n + S (length documents))%nat with (S n + length documents)%nat by lia.
    apply IH.
    + cbn [db_documents]. rewrite map_app, Hr, seq_S, map_app. reflexivity.
    + rewrite map_app, Hp, seq_S, map_app. reflexivity.
Qed.

(** X17.  With the keys SQLite gives to an integer primary key, the [n]
    documents of a run on a fresh database get the keys 1 to [n] in their
    order, as rows and as points. *)
Theorem index_documents_keys_from_one (documents : list (PreparedDoc M * V)) :
  let out := index_documents sqlite_next_rowid setup_sqlite [] documents in
  map (@point_id M V) (snd out) = map Z.of_nat (seq 1 (length documents)) /\
  map (@row_id M) (db_documents (fst out))
    = map Z.of_nat (seq 1 (length documents)).
Proof.
  assert (P : map (@point_id M V)
                (snd (index_documents sqlite_next_rowid setup_sqlite [] documents))
              = map Z.of_nat (seq 1 (length documents))).
  { apply (index_documents_run documents setup_sqlite [] 0); reflexivity. }
  split; [exact P|].
  destruct (index_documents_adds sqlite_next_rowid documents
              (@setup_sqlite M) (@nil (PointStruct M V)))
    as (ids & H1 & _ & H3 & _).
  simpl in *. rewrite H1, <- H3. exact P.
Qed.

End SqliteKeys.

(** Witness of X16: two documents, keys given as SQLite gives them. *)
Lemma index_documents_shares_keys_witness :
  NoDup (map (@point_id Z unit)
           (snd (index_documents sqlite_next_rowid setup_sqlite []
                   [(mkDoc (lit "first paragraph") 10, tt);
                    (mkDoc (lit "second paragraph") 11, tt)]))).
Proof.
  apply (index_documents_shares_keys (M:=Z) (V:=unit) sqlite_next_rowid).
  intros keys H.
  assert (B : forall k, In k keys -> k < sqlite_next_rowid keys).
  { clear H. unfold sqlite_next_rowid. destruct keys as [|i rest]; [intros k []|].
    assert (G : forall (l : list Z) (a k : Z),
              In k (a :: l) -> k <= fold_right Z.max a l).
    { induction l as [|b l IHl]; intros a k [<-|Hk]; simpl; try lia.
      - destruct Hk.
      - pose proof (IHl a a (or_introl eq_refl)). lia.
      - destruct Hk as [<-|Hk]; [lia|].
        pose proof (IHl a k (or_intror Hk)). lia. }
    intros k Hk. pose proof (G rest i k Hk). lia. }
  pose proof (B _ H). lia.
Defined.

(** ** The preparation of the documents *)

Section PreparationFacts.
Variable float_is_zero : pystr -> bool.
Implicit Types (prepared : list (PreparedDoc Metadata)).

Lemma scan_paragraphs_adds min_length doc_id chapter_id paragraphs :
  forall prepared,
  exists added,
    fst (scan_paragraphs float_is_zero min_length doc_id chapter_id
           paragraphs prepared) = prepared ++ added /\
    Forall (sound min_length doc_id) added.
Proof.
  induction paragraphs as [|paragraph rest IH]; intros prepared;
    cbn [scan_paragraphs fst].
  - exists []. split; [symmetry; apply app_nil_r | constructor].
  - destruct (py_get paragraph (lit "id") JNull) as [e|paragraph_id];
      [exists []; split; [symmetry; apply app_nil_r | constructor]|].
    destruct (py_get paragraph (lit "content") (JStr [])) as [e|content];
      [exists []; split; [symmetry; apply app_nil_r | constructor]|].
    destruct (negb (truthy float_is_zero content)); [apply IH|].
    destruct content as [| | | |raw| |];
      try (exists []; split; [symmetry; apply app_nil_r | constructor]).
    destruct (length (clean_html raw) <? min_length)%nat eqn:E; [apply IH|].
    destruct (IH (prepared ++ [mkDoc (clean_html raw)
                                 (mkMeta doc_id chapter_id paragraph_id)]))
      as (added & Ha & Hs).
    exists (mkDoc (clean_html raw) (mkMeta doc_id chapter_id paragraph_id) :: added).
    split; [rewrite Ha, <- app_assoc; reflexivity|].
    constructor; [|exact Hs].
    apply Nat.ltb_ge in E. repeat split; simpl; eauto using clean_html_spaced.
Qed.

Lemma scan_chapters_adds min_length doc_id chapters :
  forall prepared,
  exists added,
    fst (scan_chapters float_is_zero min_length doc_id chapters prepared)
      = prepared ++ added /\
    Forall (sound min_length doc_id) added.
Proof.
  induction chapters as [|chapter rest IH]; intros prepared;
    cbn [scan_chapters fst].
  - exists []. split; [symmetry; apply app_nil_r | constructor].
  - destruct (py_get chapter (lit "id") JNull) as [e|chapter_id];
      [exists []; split; [symmetry; apply app_nil_r | constructor]|].
    destruct (py_get chapter (lit "paragraphs") (JArr [])) as [e|paragraphs];
      [exists []; split; [symmetry; apply app_nil_r | constructor]|].
    destruct (py_iter paragraphs) as [e|items];
      [exists []; split; [symmetry; apply app_nil_r | constructor]|].
    destruct (scan_paragraphs_adds min_length doc_id chapter_id items prepared)
      as (added1 & H1 & S1).
    destruct (scan_paragraphs float_is_zero min_length doc_id chapter_id
                items prepared) as [prepared1 [e|]]; simpl in H1; subst prepared1.
    + exists added1. split; [reflexivity | exact S1].
    + destruct (IH (prepared ++ added1)) as (added2 & H2 & S2).
      exists (added1 ++ added2). rewrite H2, app_assoc.
      split; [reflexivity | apply Forall_app; auto].
Qed.

Lemma scan_document_adds min_length doc_data prepared :
  exists added,
    fst (scan_document float_is_zero min_length doc_data prepared)
      = prepared ++ added /\
    Forall (fun doc =>
              (min_length <= length (doc_text doc))%nat /\
              single_spaced (doc_text doc) = true /\
              (exists raw_content, doc_text doc = clean_html raw_content) /\
              py_get doc_data (lit "id") JNull
                = inr (meta_doc_id (doc_metadata doc))) added.
Proof.
  unfold scan_document.
  destruct (py_get doc_data (lit "id") JNull) as [e|doc_id];
    [exists []; split; [symmetry; apply app_nil_r | constructor]|].
  destruct (py_get doc_data (lit "chapters") (JArr [])) as [e|chapters];
    [exists []; split; [symmetry; apply app_nil_r | constructor]|].
  destruct (py_iter chapters) as [e|items];
    [exists []; split; [symmetry; apply app_nil_r | constructor]|].
  destruct (scan_chapters_adds min_length doc_id items prepared)
    as (added & Ha & Hs).
  exists added. split; [exact Ha|].
  apply (Forall_impl _ (P:=sound min_length doc_id)); [|exact Hs].
  intros doc (H1 & H2 & H3 & H4). rewrite H4. auto.
Qed.

(** X18.  A file only adds to the prepared documents, also when it raises
    half way: what it gave before stays, and so does all that earlier files
    gave.  Each document it adds carries a text cleaned by [clean_html], at
    least 30 characters long, under the id of the file's document; so no
    document prepared from a directory has a text shorter than 30
    characters. *)
Theorem prepared_documents_are_long (files : list (option json)) :
  (forall doc_data all_prepared_docs,
     exists added,
       prepare_file float_is_zero doc_data all_prepared_docs
         = all_prepared_docs ++ added /\
       Forall (fun doc =>
                 (30 <= length (doc_text doc))%nat /\
                 single_spaced (doc_text doc) = true /\
                 exists d, doc_data = Some d /\
                           py_get d (lit "id") JNull
                             = inr (meta_doc_id (doc_metadata doc))) added) /\
  Forall (fun doc =>
            (30 <= length (doc_text doc))%nat /\
            single_spaced (doc_text doc) = true)
         (prepare_documents_from_directory float_is_zero files).
Proof.
  assert (A : forall doc_data all_prepared_docs,
     exists added,
       prepare_file float_is_zero doc_data all_prepared_docs
         = all_prepared_docs ++ added /\
       Forall (fun doc =>
                 (30 <= length (doc_text doc))%nat /\
                 single_spaced (doc_text doc) = true /\
                 exists d, doc_data = Some d /\
                           py_get d (lit "id") JNull
                             = inr (meta_doc_id (doc_metadata doc))) added).
  { intros [d|] acc; simpl.
    - destruct (scan_document_adds 30 d acc) as (added & Ha & Hs).
      exists added. split; [exact Ha|].
      apply (Forall_impl _ (P:=fun doc =>
               (30 <= length (doc_text doc))%nat /\
               single_spaced (doc_text doc) = true /\
               (exists raw_content, doc_text doc = clean_html raw_content) /\
               py_get d (lit "id") JNull
                 = inr (meta_doc_id (doc_metadata doc)))); [|exact Hs].
      intros doc (H1 & H2 & _ & H4). eauto.
    - exists []. split; [symmetry; apply app_nil_r | constructor]. }
  split; [exact A|].
  unfold prepare_documents_from_directory.
  assert (G : forall acc,
            Forall (fun doc => (30 <= length (doc_text doc))%nat /\
                               single_spaced (doc_text doc) = true) acc ->
            Forall (fun doc => (30 <= length (doc_text doc))%nat /\
                               single_spaced (doc_text doc) = true)
                   (fold_left (fun all_prepared_docs doc_data =>
                                 prepare_file float_is_zero doc_data
                                   all_prepared_docs) files acc)).
  { induction files as [|f files IH]; intros acc Hacc; simpl; [exact Hacc|].
    apply IH. destruct (A f acc) as (added & -> & Hs).
    apply Forall_app. split; [exact Hacc|].
    apply (Forall_impl _ (P:=fun doc =>
             (30 <= length (doc_text doc))%nat /\
             single_spaced (doc_text doc) = true /\
             exists d, f = Some d /\
                       py_get d (lit "id") JNull
                         = inr (meta_doc_id (doc_metadata doc)))); [|exact Hs].
    intros doc (H1 & H2 & _). auto. }
  apply G. constructor.
Qed.

(** X19.  What [prepare_data_for_hybrid_search] writes out holds no empty
    text: each document has a cleaned text of at least one character, under
    the id of the input document. *)
Theorem prepared_data_is_not_empty (doc_data : json)
    (documents_for_indexing : list (PreparedDoc Metadata)) :
  prepare_data_for_hybrid_search float_is_zero doc_data
    = Returns documents_for_indexing ->
  Forall (fun doc =>
            doc_text doc <> [] /\
            single_spaced (doc_text doc) = true /\
            py_get doc_data (lit "id") JNull
              = inr (meta_doc_id (doc_metadata doc)))
         documents_for_indexing.
Proof.
  unfold prepare_data_for_hybrid_search.
  destruct (scan_document_adds 1 doc_data []) as (added & Ha & Hs).
  destruct (scan_document float_is_zero 1 doc_data []) as [docs [e|]];
    [discriminate|].
  intros [= <-]. simpl in Ha. subst docs.
  apply (Forall_impl _ (P:=fun doc =>
           (1 <= length (doc_text doc))%nat /\
           single_spaced (doc_text doc) = true /\
           (exists raw_content, doc_text doc = clean_html raw_content) /\
           py_get doc_data (lit "id") JNull
             = inr (meta_doc_id (doc_metadata doc)))); [|exact Hs].
  intros doc (H1 & H2 & _ & H4). repeat split; auto.
  intros E. rewrite E in H1. simpl in H1. lia.
Qed.

End PreparationFacts.

(** Witness of X14: a text with a [<] that no [>] closes. *)
Lemma remove_tags_leaves_no_tag_witness :
  remove_tags (lit "if a < b then") = lit "if a < b then".
Proof.
  apply (proj1 (proj2 (remove_tags_leaves_no_tag (lit "if a < b then")))).
  vm_compute. reflexivity.
Defined.

(** Witness of X19: the short paragraph is kept, the empty one is not. *)
Lemma prepared_data_is_not_empty_witness :
  Forall (fun doc =>
            doc_text doc <> [] /\
            single_spaced (doc_text doc) = true /\
            py_get sound_document (lit "id") JNull
              = inr (meta_doc_id (doc_metadata doc)))
         [mkDoc (lit "The order is logged by the operator on duty.")
                (mkMeta (JInt 3) (JInt 2) (JInt 70));
          mkDoc (lit "Note") (mkMeta (JInt 3) (JInt 2) (JInt 72))].
Proof.
  apply (prepared_data_is_not_empty (fun _ => false) sound_document).
  vm_compute. reflexivity.
Defined.

(** The preparation at work: the file gives its first paragraph, skips the
    empty and the short one, and stops at the content that is a number, so
    the last paragraph is lost; [prepare_data_for_hybrid_search] raises on
    the same document. *)
Example prepare_file_sample :
  prepare_file (fun _ => false) (Some sample_document) []
    = [mkDoc (lit "The order is logged by the operator on duty.")
             (mkMeta (JInt 3) (JInt 2) (JInt 70))] /\
  prepare_data_for_hybrid_search (fun _ => false) sample_document
    = Raises TypeError.
Proof. split; vm_compute; reflexivity. Qed.

(** ** Edges of the slices *)

Section EdgeFacts.
Context {F : Type} {arith : ScoreArith F} {U : Unicode}.
Variable self : HybridRetriever F.

Lemma slice_negative {A} (l : list A) (k : Z) :
  k < 0 -> slice l 0 k = firstn (Z.to_nat (Z.of_nat (length l) + k)) l.
Proof.
  intros Hk. unfold slice, slice_bound.
  destruct (k <? 0) eqn:E; [|apply Z.ltb_ge in E; lia]. simpl.
  rewrite Nat.sub_0_r. reflexivity.
Qed.

(** X20.  A negative [k] does not raise: the slice then drops the last
    [-k] fused entries, and with a readable table [retrieve] returns the
    rows of the entries before them, which can be more than any [k < 0]
    allows for. *)
Theorem retrieve_negative_k (q : pystr) (k : Z) (kw vec : list (SearchHit F))
    (table : list ParagraphRecord) :
  k < 0 ->
  _search_sqlite self q k = Returns kw ->
  _search_qdrant self q k = Returns vec ->
  documents self = Returns table ->
  exists docs,
    retrieve self q k = Returns docs /\
    map rec_id docs
      = filter (has_record table)
          (map (@fused_id F)
             (firstn (Z.to_nat
                        (Z.of_nat (length (_reciprocal_rank_fusion (F:=F)
                                             [kw; vec] K_RRF)) + k))
                (_reciprocal_rank_fusion [kw; vec] K_RRF))).
Proof.
  intros Hk Sk Sv D. rewrite (retrieve_of_searches self q k Sk Sv).
  unfold retrieve_from.
  destruct (hydrate_returns self (_reciprocal_rank_fusion [kw; vec] K_RRF) k D)
    as (docs & Hh & Hids & _).
  rewrite slice_negative in Hids by exact Hk.
  destruct (_reciprocal_rank_fusion [kw; vec] K_RRF) as [|h fused] eqn:Ef.
  - exists []. split; [reflexivity|]. rewrite firstn_nil. reflexivity.
  - exists docs. split; assumption.
Qed.

End EdgeFacts.

(** Witness of X20, on binary64: three hits with rows and [k = -1]; two
    records come back. *)
Lemma retrieve_negative_k_witness :
  exists docs,
    retrieve (U:=latin_cyrillic)
      (retriever_of (F:=float)
         (Returns [mkHit 9 (-3)%float; mkHit 7 (-2)%float; mkHit 1 (-1)%float])
         (Raises OtherException)
         (Returns [record_1; record_7; mkRecord 9 3 2 90 (lit "ninth")]))
      (lit "group III") (-1) = Returns docs /\
    map rec_id docs
      = filter (has_record [record_1; record_7; mkRecord 9 3 2 90 (lit "ninth")])
          (map (@fused_id float)
             (firstn (Z.to_nat
                        (Z.of_nat (length (_reciprocal_rank_fusion (F:=float)
                           [[mkHit 9 (-3)%float; mkHit 7 (-2)%float;
                             mkHit 1 (-1)%float]; []] K_RRF)) + -1))
                (_reciprocal_rank_fusion
                   [[mkHit 9 (-3)%float; mkHit 7 (-2)%float;
                     mkHit 1 (-1)%float]; []] K_RRF))).
Proof.
  apply (@retrieve_negative_k float _ latin_cyrillic
           (retriever_of (F:=float)
              (Returns [mkHit 9 (-3)%float; mkHit 7 (-2)%float; mkHit 1 (-1)%float])
              (Raises OtherException)
              (Returns [record_1; record_7; mkRecord 9 3 2 90 (lit "ninth")]))
           (lit "group III") (-1)).
  - lia.
  - reflexivity.
  - reflexivity.
  - reflexivity.
Defined.

Example retrieve_minus_one :
  retrieve (U:=latin_cyrillic)
    (retriever_of (F:=float)
       (Returns [mkHit 9 (-3)%float; mkHit 7 (-2)%float; mkHit 1 (-1)%float])
       (Raises OtherException)
       (Returns [record_1; record_7; mkRecord 9 3 2 90 (lit "ninth")]))
    (lit "group III") (-1)
  = Returns [mkRecord 9 3 2 90 (lit "ninth"); record_7].
Proof. vm_compute. reflexivity. Qed.

Section FenceSpaces.
Context {L : Libs}.

Lemma lstrip_spaces (ws s : pystr) :
  Forall (fun c => isspace c = true) ws -> lstrip (ws ++ s) = lstrip s.
Proof.
  induction 1 as [|c ws Hc _ IH]; simpl; [reflexivity|]. rewrite Hc. exact IH.
Qed.

Lemma rstrip_spaces (s ws : pystr) :
  Forall (fun c => isspace c = true) ws -> rstrip (s ++ ws) = rstrip s.
Proof.
  intros H. unfold rstrip. rewrite rev_app_distr, lstrip_spaces; [reflexivity|].
  apply Forall_rev, H.
Qed.

(** X21.  White space before the opening fence and behind the closing one
    does not matter: with any of it on either side of a fenced payload, the
    handler still parses the payload stripped of its own white space. *)
Theorem strip_fence_spaces (before behind p : pystr) :
  Forall (fun c => isspace c = true) before ->
  Forall (fun c => isspace c = true) behind ->
  strip_fence (before ++ fenced p ++ behind) = strip p /\
  parse_terminal (before ++ fenced p ++ behind) = json_loads (strip p).
Proof.
  intros Hb Ha.
  assert (E : strip (before ++ fenced p ++ behind) = fenced p).
  { unfold strip. rewrite lstrip_spaces by exact Hb.
    pose proof (strip_fenced p) as S. unfold strip in S.
    assert (Lf : lstrip (fenced p ++ behind) = fenced p ++ behind) by reflexivity.
    assert (Lp : lstrip (fenced p) = fenced p) by reflexivity.
    rewrite Lf, rstrip_spaces by exact Ha. rewrite Lp in S. exact S. }
  assert (G : strip_fence (before ++ fenced p ++ behind) = strip p).
  { unfold strip_fence. rewrite E, slice_fenced.
    change (startswith (fenced p) (lit "```json")) with true. cbv iota.
    unfold strip. simpl. reflexivity. }
  split; [exact G|]. unfold parse_terminal. rewrite G. reflexivity.
Qed.

End FenceSpaces.

(** Witness of X21: the success example of the prompt, fenced, after a
    blank line and before a line break and a space. *)
Lemma strip_fence_spaces_witness :
  parse_terminal (L:=sample_libs)
    ([10%N; 10%N] ++ fenced location_text ++ [10%N; 32%N])
  = Some location_value.
Proof.
  etransitivity.
  - apply (proj2 (@strip_fence_spaces sample_libs [10%N; 10%N] [10%N; 32%N]
                    location_text
                    ltac:(repeat constructor) ltac:(repeat constructor))).
  - vm_compute. reflexivity.
Defined.
